(** * mydlib: catalogue build / replay and document acquisition

    A shallow embedding of [mydlib/traverser.py] and [mydlib/libgenget.py]
    together with the properties their design document states about them.

    Conventions of the embedding:
    - a Python [str] is the [string] of its code points, which are below
      256 (Latin-1): [str.isdigit] holds of 0..9 and of the superscripts
      one, two and three, [int] reads 0..9 only, and [str.lower] maps
      A..Z and the accented capitals to their small letters;
    - a raised exception is a value [Raise e] of [result]; effectful code
      runs in the monad [M], which threads a [world] (file system, and a
      ghost trace of the effectful calls performed so far);
    - paths are POSIX paths, cut at the slash as the code itself cuts
      them; the file system has no symbolic links and refuses nothing for
      want of permission or space;
    - the network and the pickle module are outside the package: they are
      taken as parameters ([net], [codec]). *)

From Stdlib Require Import ZArith Ascii String List Lia Bool.
From stdpp Require Import base gmap strings list.

Local Open Scope string_scope.
Local Open Scope list_scope.
Local Open Scope Z_scope.

(** ** Exceptions and results *)

Inductive exn : Type :=
| ValueError (msg : string)
| IndexError
| TypeError
| KeyError
| FileNotFoundError
| FileExistsError
| IsADirectoryError
| UnpicklingError
| RequestException
| EOFError
| NotADirectoryError.

Inductive result (A : Type) : Type :=
| Ok (a : A)
| Raise (e : exn).
Arguments Ok {A} a.
Arguments Raise {A} e.

Definition rbind {A B} (r : result A) (k : A -> result B) : result B :=
  match r with
  | Ok a => k a
  | Raise e => Raise e
  end.

Notation "'let?' x ':=' r 'in' k" := (rbind r (fun x => k))
  (at level 10, x pattern, r at level 100, k at level 200).

Definition is_ok {A} (r : result A) : bool :=
  match r with Ok _ => true | Raise _ => false end.

(** ** Python string primitives *)

Definition newline : ascii := Ascii.ascii_of_nat 10.
Definition slash : ascii := "/"%char.
Definition dot : ascii := "."%char.

(** [c in s] for a one-character [c]. *)
Fixpoint contains_char (c : ascii) (s : string) : bool :=
  match s with
  | EmptyString => false
  | String d s' => if Ascii.eqb c d then true else contains_char c s'
  end.

(** [sub in s]. *)
Fixpoint str_contains (sub s : string) : bool :=
  if String.prefix sub s then true
  else match s with
       | EmptyString => false
       | String _ s' => str_contains sub s'
       end.

(** [s.startswith(p)]. *)
Definition startswith (p s : string) : bool := String.prefix p s.

(** [s[-1]]: the last character, [IndexError] on the empty string. *)
Fixpoint last_char (s : string) : result ascii :=
  match s with
  | EmptyString => Raise IndexError
  | String c EmptyString => Ok c
  | String _ s' => last_char s'
  end.

(** [s[:-1]]. *)
Fixpoint drop_last (s : string) : string :=
  match s with
  | EmptyString => EmptyString
  | String _ EmptyString => EmptyString
  | String c s' => String c (drop_last s')
  end.

(** [s[0]]. *)
Definition first_char (s : string) : result ascii :=
  match s with
  | EmptyString => Raise IndexError
  | String c _ => Ok c
  end.

(** [s[1:]]. *)
Definition drop_first (s : string) : string :=
  match s with
  | EmptyString => EmptyString
  | String _ s' => s'
  end.

(** [s.replace(old, new)] for a non-empty [old]: occurrences are found
    from the left and do not overlap; [skip] counts the characters of a
    matched occurrence still to be dropped. *)
Fixpoint replace_from (old new : string) (skip : nat) (s : string) : string :=
  match s with
  | EmptyString => EmptyString
  | String c s' =>
      match skip with
      | S k => replace_from old new k s'
      | O =>
          if String.prefix old s
          then new +:+ replace_from old new (String.length old - 1) s'
          else String c (replace_from old new 0 s')
      end
  end.

(** [s.replace('', new)]: [new] before every character and at the end. *)
Fixpoint intersperse_str (new s : string) : string :=
  match s with
  | EmptyString => new
  | String c s' => new +:+ String c (intersperse_str new s')
  end.

Definition str_replace (s old new : string) : string :=
  match old with
  | EmptyString => intersperse_str new s
  | String _ _ => replace_from old new 0 s
  end.

(** [s.split(sep)] for a one-character separator: never the empty list. *)
Fixpoint str_split (sep : ascii) (s : string) : list string :=
  match s with
  | EmptyString => [EmptyString]
  | String c s' =>
      if Ascii.eqb c sep then EmptyString :: str_split sep s'
      else match str_split sep s' with
           | h :: t => String c h :: t
           | [] => [String c EmptyString]
           end
  end.

(** [sep.join(l)]. *)
Fixpoint str_join (sep : string) (l : list string) : string :=
  match l with
  | [] => EmptyString
  | [x] => x
  | x :: l' => x +:+ sep +:+ str_join sep l'
  end.

Definition is_upper (c : ascii) : bool :=
  let n := Ascii.nat_of_ascii c in
  ((65 <=? n)%nat && (n <=? 90)%nat)
  || ((192 <=? n)%nat && (n <=? 222)%nat && negb (n =? 215)%nat).

Definition lower_char (c : ascii) : ascii :=
  if is_upper c then Ascii.ascii_of_nat (Ascii.nat_of_ascii c + 32) else c.

(** [s.lower()]. *)
Fixpoint str_lower (s : string) : string :=
  match s with
  | EmptyString => EmptyString
  | String c s' => String (lower_char c) (str_lower s')
  end.

(** [str.isdecimal] on one character: the characters [int] reads. *)
Definition isdecimal (c : ascii) : bool :=
  let n := Ascii.nat_of_ascii c in (48 <=? n)%nat && (n <=? 57)%nat.

(** [str.isdigit] on one character: the decimal characters and the
    superscripts two (178), three (179) and one (185). *)
Definition isdigit (c : ascii) : bool :=
  let n := Ascii.nat_of_ascii c in
  isdecimal c || (n =? 178)%nat || (n =? 179)%nat || (n =? 185)%nat.

(** [''.join(list(filter(pred, s)))]. *)
Fixpoint str_filter (pred : ascii -> bool) (s : string) : string :=
  match s with
  | EmptyString => EmptyString
  | String c s' =>
      if pred c then String c (str_filter pred s') else str_filter pred s'
  end.

Definition digit_value (c : ascii) : Z := Z.of_nat (Ascii.nat_of_ascii c) - 48.

(** The digits of [s] read from the left, on top of the value [acc]
    already read; [None] at a character that is not a decimal digit. *)
Fixpoint int_digits (acc : Z) (s : string) : option Z :=
  match s with
  | EmptyString => Some acc
  | String c s' =>
      if isdecimal c then int_digits (10 * acc + digit_value c) s' else None
  end.

(** [sys.get_int_max_str_digits()], CPython's default. *)
Definition int_max_str_digits : nat := 4300.

(** [int(s)] on the strings the digit filter can produce.  The empty
    string, a string of more than [int_max_str_digits] digits and a
    string with a character that is not a decimal digit are a
    [ValueError]; a run of decimal digits is its value. *)
Definition py_int (s : string) : result Z :=
  match s with
  | EmptyString => Raise (ValueError "invalid literal for int()")
  | String _ _ =>
      if (int_max_str_digits <? String.length s)%nat
      then Raise (ValueError "Exceeds the limit for integer string conversion")
      else match int_digits 0 s with
           | Some n => Ok n
           | None => Raise (ValueError "invalid literal for int()")
           end
  end.

(** [l[i]] with Python's indexing: a negative index counts from the end,
    an index out of range raises [IndexError]. *)
Definition py_index {A} (l : list A) (i : Z) : result A :=
  let n := Z.of_nat (length l) in
  let j := if i <? 0 then i + n else i in
  if (j <? 0) || (n <=? j) then Raise IndexError
  else match nth_error l (Z.to_nat j) with
       | Some x => Ok x
       | None => Raise IndexError
       end.

(** [l[a:-1]] for a non-negative [a]. *)
Definition slice_to_last {A} (a : nat) (l : list A) : list A :=
  take (length l - 1 - a)%nat (drop a l).

(** ** The catalogue (traverser.py) *)

(** One element of a catalogue: the tuple [(path, dirs, files)].  The text
    parser always stores [[]] for [dirs]; [os.walk] fills it. *)
Definition entry : Type := string * list string * list string.
Definition catalogue_t : Type := list entry.

Definition entry_path (e : entry) : string := fst (fst e).
Definition entry_dirs (e : entry) : list string := snd (fst e).
Definition entry_files (e : entry) : list string := snd e.

(** Reading in text mode ([open(name, 'r')], universal newlines): a
    carriage return followed by a line feed, and a carriage return alone,
    are read as one line feed. *)
Definition carriage_return : ascii := Ascii.ascii_of_nat 13.

Fixpoint universal_newlines (s : string) : string :=
  match s with
  | EmptyString => EmptyString
  | String c s' =>
      if Ascii.eqb c carriage_return then
        String newline
          (match s' with
           | String d s'' =>
               if Ascii.eqb d newline then universal_newlines s''
               else universal_newlines s'
           | EmptyString => EmptyString
           end)
      else String c (universal_newlines s')
  end.

(** Iterating over the text read: it is cut after every line feed, which
    stays at the end of its line; [cur] is the line being read. *)
Fixpoint py_lines_from (cur : string) (s : string) : list string :=
  match s with
  | EmptyString =>
      match cur with EmptyString => [] | _ => [cur] end
  | String c s' =>
      if Ascii.eqb c newline
      then (cur +:+ String c EmptyString) :: py_lines_from EmptyString s'
      else py_lines_from (cur +:+ String c EmptyString) s'
  end.

(** [for line in fhandle] on a file opened with [open(name, 'r')] whose
    content is [content]. *)
Definition py_lines (content : string) : list string :=
  py_lines_from EmptyString (universal_newlines content).

(** The [for line in fhandle] loop of [create_catalogue_txt] (lines 47-64)
    followed by the final [catalogue.append] (line 65); the arguments
    [i], [files], [path] and [catalogue] are the local variables. *)
Fixpoint txt_loop (lines : list string) (i : nat) (files : list string)
    (path : string) (catalogue : catalogue_t) : result catalogue_t :=
  match lines with
  | [] => Ok (catalogue ++ [(path, [], files)])
  | raw :: rest =>
      let? c := last_char raw in
      let line := if Ascii.eqb c newline then drop_last raw else raw in
      if Nat.eqb i 0 then
        if contains_char dot line
        then txt_loop rest (i + 1) (files ++ [line]) "./" catalogue
        else txt_loop rest (i + 1) files line catalogue
      else if contains_char dot line
      then txt_loop rest i
             (files ++ [str_replace (str_replace line path "") "/" ""])
             path catalogue
      else txt_loop rest i [] line (catalogue ++ [(path, [], files)])
  end.

(** The catalogue [create_catalogue_txt] builds from the lines of the
    text file. *)
Definition parse_lines (lines : list string) : result catalogue_t :=
  txt_loop lines 0 [] "" [].

(** ** Search results (libgenget.py) *)

(** An [<a>] tag and a [<td>] cell as [get_info] sees them: [x.text],
    [x.a] ([None] without an anchor) and [x.a['href']]. *)
Record tag_a : Type := { href : option string }.
Record td : Type := { text : string; a : option tag_a }.

(** The dictionary [info]. *)
Record info_t : Type := {
  author : string;
  title : string;
  pages : Z;
  lang : string;
  size : string;
  type : string;
  links : list string;
  code : string;
  download_page : option string
}.

(** [temp[k]] for a non-negative constant [k]. *)
Definition cell_at (temp : list td) (k : nat) : result td :=
  match nth_error temp k with
  | Some x => Ok x
  | None => Raise IndexError
  end.

(** [x.a['href']]. *)
Definition cell_href (x : td) : result string :=
  match a x with
  | None => Raise TypeError
  | Some t => match href t with
              | None => Raise KeyError
              | Some h => Ok h
              end
  end.

(** [[x.a['href'] for x in cells]]. *)
Fixpoint hrefs (cells : list td) : result (list string) :=
  match cells with
  | [] => Ok []
  | x :: cells' =>
      let? h := cell_href x in
      let? hs := hrefs cells' in
      Ok (h :: hs)
  end.

(** Lines 24-28: the digits of the page-count cell, [0] when [int] fails. *)
Definition page_count (raw : string) : Z :=
  let val := str_filter isdigit raw in
  match py_int val with
  | Ok n => n
  | Raise _ => 0
  end.

(** [link.split('/')[-1]]. *)
Definition get_code (link : string) : string :=
  List.last (str_split slash link) EmptyString.

Definition mirror_host : string := "http://93.174.95.29/_ads/".

(** Lines 39-43. *)
Fixpoint get_download_page (links : list string) : option string :=
  match links with
  | [] => None
  | i :: links' =>
      if str_contains mirror_host i then Some i else get_download_page links'
  end.

(** [get_info(res)], with [temp = res.find_all('td')]. *)
Definition get_info (temp : list td) : result info_t :=
  let? c1 := cell_at temp 1 in
  let? c2 := cell_at temp 2 in
  let? c5 := cell_at temp 5 in
  let val := page_count (text c5) in
  let? c6 := cell_at temp 6 in
  let? c7 := cell_at temp 7 in
  let? c8 := cell_at temp 8 in
  let? ls := hrefs (slice_to_last 9 temp) in
  let? l0 := py_index ls 0 in
  Ok {| author := text c1; title := text c2; pages := val;
        lang := text c6; size := text c7; type := text c8;
        links := ls; code := get_code l0;
        download_page := get_download_page ls |}.

(** [max(l, key=key)]: the first element is kept until a strictly larger
    key is met. *)
Fixpoint max_from {A} (key : A -> Z) (best : A) (l : list A) : A :=
  match l with
  | [] => best
  | x :: l' => if key best <? key x then max_from key x l'
               else max_from key best l'
  end.

Definition py_max {A} (key : A -> Z) (l : list A) : result A :=
  match l with
  | [] => Raise (ValueError "max() arg is an empty sequence")
  | x :: l' => Ok (max_from key x l')
  end.

Definition comparing (x : info_t) : Z := pages x.

(** [[infos[int(i)-1] for i in selection]]; [selection] holds the integers
    the operator typed. *)
Fixpoint pick (infos : list info_t) (selection : list Z) : result (list info_t) :=
  match selection with
  | [] => Ok []
  | i :: selection' =>
      let? x := py_index infos (i - 1) in
      let? xs := pick infos selection' in
      Ok (x :: xs)
  end.

(** ** The world: file system, console input, trace of effectful calls *)

Inductive event : Type :=
| EvMkdir (path : string)                 (* os.mkdir(path) *)
| EvAction (file_name : string)           (* action_function(file_name=...) *)
| EvRetrieve (download_link file_name : string). (* retrieve(link, name) *)

(** Files and directories are kept under their paths, as POSIX spells
    them relative to the current directory.  [w_stdin] holds the lines
    still to be read by [input()], each already split and converted by
    [int]. *)
Record world : Type := {
  w_files : gmap string string;
  w_dirs : gset string;
  w_stdin : list (list Z);
  w_trace : list event
}.

Definition M (A : Type) : Type := world -> result A * world.

Definition ret {A} (x : A) : M A := fun w => (Ok x, w).
Definition raise {A} (e : exn) : M A := fun w => (Raise e, w).
Definition bind {A B} (m : M A) (k : A -> M B) : M B :=
  fun w => match m w with
           | (Ok x, w') => k x w'
           | (Raise e, w') => (Raise e, w')
           end.
Definition lift {A} (r : result A) : M A := fun w => (r, w).

Notation "x <- m ;; k" := (bind m (fun x => k))
  (at level 100, m at next level, right associativity).
Notation "m ;; k" := (bind m (fun _ => k))
  (at level 100, right associativity).

Definition log (e : event) : M unit :=
  fun w => (Ok tt, {| w_files := w_files w; w_dirs := w_dirs w;
                      w_stdin := w_stdin w; w_trace := w_trace w ++ [e] |}).

Definition isfile (name : string) : M bool :=
  fun w => (Ok (bool_decide (is_Some (w_files w !! name))), w).

Definition isdir (name : string) : M bool :=
  fun w => (Ok (bool_decide (name ∈ w_dirs w)), w).

(** The components of a path: what stands between its slashes, empty
    pieces (a doubled, leading or final slash) left out. *)
Definition path_components (path : string) : list string :=
  List.filter (fun c => negb (String.eqb c "")) (str_split slash path).

(** The path under which the directory reached through [stack] is kept. *)
Definition path_key (absolute : bool) (stack : list string) : string :=
  (if absolute then "/" else "") +:+ str_join "/" stack.

(** One step up from [stack]: the root is its own parent, and above the
    current directory the way up is spelled with dot-dot. *)
Definition up (absolute : bool) (stack : list string) : list string :=
  match stack with
  | [] => if absolute then [] else [".."]
  | _ => if String.eqb (List.last stack "") ".." then stack ++ [".."]
         else removelast stack
  end.

(** Path resolution, as mkdir(2) resolves all but the last component:
    every named component must be an existing directory. *)
Fixpoint walk_dirs (dirs : gset string) (files : gmap string string)
    (absolute : bool) (stack : list string) (comps : list string)
    : result (list string) :=
  match comps with
  | [] => Ok stack
  | c :: comps' =>
      if String.eqb c "." then walk_dirs dirs files absolute stack comps'
      else if String.eqb c ".."
      then walk_dirs dirs files absolute (up absolute stack) comps'
      else
        let key := path_key absolute (stack ++ [c]) in
        if bool_decide (key ∈ dirs)
        then walk_dirs dirs files absolute (stack ++ [c]) comps'
        else if bool_decide (is_Some (files !! key)) then Raise NotADirectoryError
        else Raise FileNotFoundError
  end.

(** [os.mkdir(path)] (POSIX; no symbolic links, no permissions): the
    empty path does not exist; the directories leading to the last
    component must exist; the last component must not exist yet, which
    rules out the root, dot and dot-dot. *)
Definition mkdir (path : string) : M unit :=
  log (EvMkdir path) ;;
  fun w =>
    if String.eqb path "" then (Raise FileNotFoundError, w)
    else
      let absolute := startswith "/" path in
      let comps := path_components path in
      match walk_dirs (w_dirs w) (w_files w) absolute [] (removelast comps) with
      | Raise e => (Raise e, w)
      | Ok stack =>
          let c := List.last comps "." in
          if String.eqb c "." || String.eqb c ".." then (Raise FileExistsError, w)
          else
            let key := path_key absolute (stack ++ [c]) in
            if bool_decide (key ∈ w_dirs w) || bool_decide (is_Some (w_files w !! key))
            then (Raise FileExistsError, w)
            else (Ok tt, {| w_files := w_files w; w_dirs := {[key]} ∪ w_dirs w;
                            w_stdin := w_stdin w; w_trace := w_trace w |})
      end.

(** [open(name, 'wb')] followed by writing [content]. *)
Definition write_file (name content : string) : M unit :=
  fun w =>
    if String.eqb name "" then (Raise FileNotFoundError, w)
    else if bool_decide (name ∈ w_dirs w) then (Raise IsADirectoryError, w)
    else (Ok tt, {| w_files := <[name := content]> (w_files w);
                    w_dirs := w_dirs w;
                    w_stdin := w_stdin w; w_trace := w_trace w |}).

(** [open(name, 'r')] followed by reading the whole file. *)
Definition read_file (name : string) : M string :=
  fun w =>
    match w_files w !! name with
    | Some content => (Ok content, w)
    | None => if bool_decide (name ∈ w_dirs w) then (Raise IsADirectoryError, w)
              else (Raise FileNotFoundError, w)
    end.

(** [input().split()] with every token converted by [int]. *)
Definition input_ints : M (list Z) :=
  fun w =>
    match w_stdin w with
    | [] => (Raise EOFError, w)
    | l :: rest => (Ok l, {| w_files := w_files w; w_dirs := w_dirs w;
                             w_stdin := rest; w_trace := w_trace w |})
    end.

(** ** The catalogue store and the replay (traverser.py) *)

(** The [pickle] module on catalogues. *)
Record codec : Type := {
  pickle_dumps : catalogue_t -> string;
  pickle_loads : string -> result catalogue_t
}.

Definition dump_file (P : codec) (obj : catalogue_t) (file_name : string) : M unit :=
  write_file file_name (pickle_dumps P obj).

Definition load_file (P : codec) (file_name : string) : M catalogue_t :=
  content <- read_file file_name ;;
  lift (pickle_loads P content).

Definition get_relative (catalogue : catalogue_t) : catalogue_t := catalogue.

Definition create_catalogue_txt (P : codec) (txt_file file_name : string) : M unit :=
  b <- isfile file_name ;;
  if b then raise (ValueError "There already exists a file with same name.")
  else
    b' <- isfile txt_file ;;
    if negb b' then raise (ValueError "text file does not exist containing paths.")
    else
      content <- read_file txt_file ;;
      catalogue <- lift (parse_lines (py_lines content)) ;;
      dump_file P catalogue file_name.

(** [os.path.join(a, b)] (POSIX). *)
Definition path_join (a b : string) : string :=
  if startswith "/" b then b
  else match last_char a with
       | Raise _ => b
       | Ok c => if Ascii.eqb c slash then a +:+ b else a +:+ "/" +:+ b
       end.

(** Lines 102-107: [(base_dir, replace_path)] of the first path. *)
Definition base_and_replace (first_path : string) : string * string :=
  let parts := str_split slash first_path in
  if (length parts <=? 1)%nat
  then (List.last parts EmptyString, EmptyString)
  else (List.last parts EmptyString, str_join "/" (removelast parts)).

(** Lines 119-122. *)
Fixpoint for_files {A} (action_function : string -> M A) (path_ : string)
    (files : list string) : M unit :=
  match files with
  | [] => ret tt
  | file :: files' =>
      let file_name_with_path := path_join path_ file in
      log (EvAction file_name_with_path) ;;
      action_function file_name_with_path ;;
      for_files action_function path_ files'
  end.

(** Lines 113-122. *)
Fixpoint for_entries {A} (action_function : string -> M A) (replace_path : string)
    (catalogue : catalogue_t) : M unit :=
  match catalogue with
  | [] => ret tt
  | (path_, dirs, files) :: catalogue' =>
      let path_ := str_replace path_ replace_path "" in
      c <- lift (first_char path_) ;;
      let path_ := if Ascii.eqb c slash then drop_first path_ else path_ in
      mkdir path_ ;;
      for_files action_function path_ files ;;
      for_entries action_function replace_path catalogue'
  end.

Definition traverse_catalogue {A} (P : codec) (file_name : string)
    (action_function : string -> M A) : M unit :=
  b <- isfile file_name ;;
  if negb b then raise (ValueError "File given does not exist...")
  else
    catalogue <- load_file P file_name ;;
    first <- lift (py_index catalogue 0) ;;
    let '(base_dir, replace_path) := base_and_replace (entry_path first) in
    d <- isdir base_dir ;;
    if d then raise (ValueError "Directory already exists...")
    else for_entries action_function replace_path catalogue.

(** [creator], the default action. *)
Definition creator (file_name : string) : M unit := write_file file_name "kk".

(** ** Acquisition (libgenget.py) *)

(** The remote side.  [get_results url] is the list of result rows of the
    search page, each row as its [<td>] cells; [info_href page] is
    [soup.find_all('td',{"id":'info'})[0].a['href']] of the download page;
    [http_body link] is the body that [rq.get(link, stream=True)] streams
    when the whole transfer goes through, and the exception raised when it
    does not.  In that case [http_partial link] tells where it broke:
    [None] when [rq.get] itself raised, [Some part] when the response had
    started and [part] had been written to the file before a chunk failed
    to arrive or to be written. *)
Record net : Type := {
  get_results : string -> result (list (list td));
  info_href : string -> result string;
  http_body : string -> result string;
  http_partial : string -> option string
}.

Definition mirror_base : string := "http://93.174.95.29/".

Definition get_download_link (N : net) (download_page : option string) : result string :=
  match download_page with
  | None => Raise RequestException
  | Some page =>
      let? h := info_href N page in
      Ok (mirror_base +:+ h)
  end.

(** [retrieve(download_link, file_name)]: the request, then
    [open(file_name, 'wb')], then the chunks written one by one; a
    transfer that breaks after the file was opened leaves in the file
    what had been written. *)
Definition retrieve (N : net) (download_link file_name : string) : M unit :=
  log (EvRetrieve download_link file_name) ;;
  match http_body N download_link with
  | Ok body => write_file file_name body
  | Raise e =>
      match http_partial N download_link with
      | None => raise e
      | Some part => write_file file_name part ;; raise e
      end
  end.

(** [[get_info(result) for result in rows]]. *)
Fixpoint get_infos (rows : list (list td)) : result (list info_t) :=
  match rows with
  | [] => Ok []
  | r :: rows' =>
      let? x := get_info r in
      let? xs := get_infos rows' in
      Ok (x :: xs)
  end.

(** [to_be_downloaded(infos)] (lines 143-162), console output left out. *)
Definition to_be_downloaded (auto : bool) (infos : list info_t) : M (list info_t) :=
  if auto then
    lift (let? m := py_max comparing infos in Ok [m])
  else
    selection <- input_ints ;;
    lift (pick infos selection).

(** The body of the loop [for final in finals] (lines 172-184): the value
    returned is [file_name] as the iteration leaves it. *)
Definition download_step (N : net) (final : info_t) (file_name : string) : M string :=
  download_link <- lift (get_download_link N (download_page final)) ;;
  let title := title final in
  let file_type := str_lower (type final) in
  let file_name := if String.eqb file_name "" then title +:+ file_type
                   else file_name in
  retrieve N download_link file_name ;;
  ret file_name.

(** Lines 170-184. *)
Fixpoint download_loop (N : net) (finals : list info_t) (file_name : string) : M unit :=
  match finals with
  | [] => ret tt
  | final :: finals' =>
      file_name <- download_step N final file_name ;;
      download_loop N finals' file_name
  end.

Definition search_url (book_name : string) : string :=
  "http://libgen.is/search.php?req=" +:+ book_name +:+
  "&lg_topic=libgen&open=0&view=simple&res=25&phrase=1&column=def".

(** [download(book_name, file_name, auto)]. *)
Definition download (N : net) (book_name file_name : string) (auto : bool) : M bool :=
  book_name <-
    (if String.eqb book_name "" then
       if negb (String.eqb file_name "") then
         ret (hd EmptyString
                (str_split dot (List.last (str_split slash file_name) EmptyString)))
       else raise (ValueError "neither book name is provided nor file name")
     else ret book_name) ;;
  results <- lift (get_results N (search_url book_name)) ;;
  infos <- lift (get_infos (tl results)) ;;
  if (length infos <? 1)%nat then ret false
  else
    finals <- to_be_downloaded auto infos ;;
    download_loop N finals file_name ;;
    ret true.

Definition get_better_name (book_name : string) : string := book_name.

(** [get_book(book_name, file_name, auto)]. *)
Definition get_book (N : net) (book_name file_name : string) (auto : bool) : M bool :=
  ok <- download N book_name file_name auto ;;
  if negb ok then
    let book_name := get_better_name book_name in
    ok' <- download N book_name file_name auto ;;
    if negb ok' then ret false else ret true
  else ret true.

(** ** A reference codec

    A length-prefixed encoding of catalogues, used as an instance of
    [codec]: a number is written in unary, a string and a list after their
    length. *)

Fixpoint enc_nat (n : nat) : string :=
  match n with
  | O => "0"
  | S k => String "1"%char (enc_nat k)
  end.

Fixpoint dec_nat (s : string) : option (nat * string) :=
  match s with
  | EmptyString => None
  | String c s' =>
      if Ascii.eqb c "0"%char then Some (O, s')
      else if Ascii.eqb c "1"%char then
        match dec_nat s' with
        | Some (n, r) => Some (S n, r)
        | None => None
        end
      else None
  end.

Definition enc_str (s : string) : string := enc_nat (String.length s) +:+ s.

Fixpoint dec_chars (n : nat) (s : string) : option (string * string) :=
  match n with
  | O => Some (EmptyString, s)
  | S k =>
      match s with
      | EmptyString => None
      | String c s' =>
          match dec_chars k s' with
          | Some (x, r) => Some (String c x, r)
          | None => None
          end
      end
  end.

Definition dec_str (s : string) : option (string * string) :=
  match dec_nat s with
  | Some (n, r) => dec_chars n r
  | None => None
  end.

Fixpoint enc_items {A} (enc : A -> string) (l : list A) : string :=
  match l with
  | [] => EmptyString
  | x :: l' => enc x +:+ enc_items enc l'
  end.

Definition enc_list {A} (enc : A -> string) (l : list A) : string :=
  enc_nat (length l) +:+ enc_items enc l.

Fixpoint dec_items {A} (dec : string -> option (A * string)) (n : nat)
    (s : string) : option (list A * string) :=
  match n with
  | O => Some ([], s)
  | S k =>
      match dec s with
      | Some (x, r) =>
          match dec_items dec k r with
          | Some (xs, r') => Some (x :: xs, r')
          | None => None
          end
      | None => None
      end
  end.

Definition dec_list {A} (dec : string -> option (A * string)) (s : string)
    : option (list A * string) :=
  match dec_nat s with
  | Some (n, r) => dec_items dec n r
  | None => None
  end.

Definition enc_entry (e : entry) : string :=
  enc_str (entry_path e) +:+ enc_list enc_str (entry_dirs e)
    +:+ enc_list enc_str (entry_files e).

Definition dec_entry (s : string) : option (entry * string) :=
  match dec_str s with
  | Some (p, r1) =>
      match dec_list dec_str r1 with
      | Some (d, r2) =>
          match dec_list dec_str r2 with
          | Some (f, r3) => Some ((p, d, f), r3)
          | None => None
          end
      | None => None
      end
  | None => None
  end.

Definition ref_dumps (c : catalogue_t) : string := enc_list enc_entry c.

Definition ref_loads (s : string) : result catalogue_t :=
  match dec_list dec_entry s with
  | Some (c, EmptyString) => Ok c
  | _ => Raise UnpicklingError
  end.

Definition ref_codec : codec :=
  {| pickle_dumps := ref_dumps; pickle_loads := ref_loads |}.

(** ** The design document's wording, for comparison with the code *)

(** "stripping all non-digit characters from the raw page-count field and
    parsing the remainder as an integer, defaulting to 0 on failure or on
    empty result": [kept raw] is the remainder; it parses when it is not
    empty, holds decimal digits only and is not longer than the
    interpreter allows; its value is the decimal value of its digits. *)
Definition kept (raw : string) : list ascii :=
  List.filter isdigit (list_ascii_of_string raw).

Definition parsable (l : list ascii) : bool :=
  negb (length l =? 0)%nat && forallb isdecimal l
  && (length l <=? int_max_str_digits)%nat.

Definition decimal_value (l : list ascii) : Z :=
  fold_left (fun acc d => 10 * acc + d) (map digit_value l) 0.

Definition spec_page_count (raw : string) : Z :=
  if parsable (kept raw) then decimal_value (kept raw) else 0.

(** "the first mirror link whose literal prefix matches a fixed trusted
    mirror-host prefix; absent if none match". *)
Fixpoint spec_download_page (links : list string) : option string :=
  match links with
  | [] => None
  | i :: links' =>
      if startswith mirror_host i then Some i else spec_download_page links'
  end.

(** "the line, stripped of any path prefix and slash characters": what
    follows the last slash. *)
Definition spec_strip (line : string) : string :=
  List.last (str_split slash line) EmptyString.

(** ** Sample data *)

Definition empty_world : world :=
  {| w_files := ∅; w_dirs := ∅; w_stdin := []; w_trace := [] |}.

Definition cell (t : string) : td := {| text := t; a := None |}.
Definition link_cell (h : string) : td :=
  {| text := "[1]"; a := Some {| href := Some h |} |}.

Definition sample_info (t : string) (p : Z) : info_t :=
  {| author := "A. Author"; title := t; pages := p; lang := "English";
     size := "3 Mb"; type := "PDF"; links := ["http://93.174.95.29/_ads/" +:+ t];
     code := t; download_page := Some ("http://93.174.95.29/_ads/" +:+ t) |}.

Definition nl : string := String newline EmptyString.

Definition listing_lines : list string :=
  ["books"; "books/a.pdf"; "books/sub"; "books/sub/b.pdf"].

Definition listing_text : string :=
  "books" +:+ nl +:+ "books/a.pdf" +:+ nl +:+ "books/sub" +:+ nl
    +:+ "books/sub/b.pdf" +:+ nl.

Definition page_samples : list info_t :=
  [sample_info "first" 100; sample_info "second" 353;
   sample_info "third" 353; sample_info "fourth" 40].

Definition decoy_links : list string :=
  ["http://example.org/go?to=http://93.174.95.29/_ads/AAAA";
   "http://93.174.95.29/_ads/BBBB"].

Definition row_nine : list td :=
  [cell "1"; cell "A. Author"; cell "Example Book"; cell "Press"; cell "2005";
   cell "353 p."; cell "English"; cell "3 Mb"; cell "pdf"].

Definition sample_catalogue : catalogue_t :=
  [("home/books", [], ["a.pdf"]); ("home/books/empty", [], []);
   ("home/books/sub", [], ["b.pdf"; "c.djvu"])].

(** A target that already has the directory "books", next to the
    catalogue file. *)
Definition replay_world : world :=
  {| w_files := {[ "books.cat" := ref_dumps sample_catalogue ]};
     w_dirs := {[ "books" ]}; w_stdin := []; w_trace := [] |}.

(** A remote side on which every request succeeds. *)
Definition sample_net : net :=
  {| get_results := fun _ => Ok [];
     info_href := fun _ => Ok "get.php?md5=1";
     http_body := fun _ => Ok "%PDF-1.4";
     http_partial := fun _ => None |}.

(** The name under which one iteration streams its record. *)
Definition step_name (final : info_t) (file_name : string) : string :=
  if String.eqb file_name "" then title final +:+ str_lower (type final)
  else file_name.

(** The cell has an anchor with an href: [x.a['href']] does not raise. *)
Definition has_href (x : td) : Prop := exists h, cell_href x = Ok h.

(** The record [final] resolves to the download link [lb.1], whose body
    [lb.2] arrives. *)
Definition resolves (N : net) (final : info_t) (lb : string * string) : Prop :=
  get_download_link N (download_page final) = Ok (fst lb)
  /\ http_body N (fst lb) = Ok (snd lb).

(** The calls [retrieve(link, name)] for the links of [ls] in order. *)
Definition retrieve_events (name : string) (ls : list string) : list event :=
  map (fun l => EvRetrieve l name) ls.

(** A remote side that answers every download page with its own address
    as anchor and every link with a body naming the link. *)
Definition echo_net : net :=
  {| get_results := fun _ => Ok [];
     info_href := fun page => Ok page;
     http_body := fun link => Ok ("body of " +:+ link);
     http_partial := fun _ => None |}.

Definition two_finals : list info_t :=
  [{| author := "A"; title := "Example Book"; pages := 353; lang := "English";
      size := "3 Mb"; type := "PDF"; links := ["p1"]; code := "p1";
      download_page := Some "p1" |};
   {| author := "B"; title := "Other Title"; pages := 40; lang := "English";
      size := "1 Mb"; type := "DJVU"; links := ["p2"]; code := "p2";
      download_page := Some "p2" |}].

(** A world whose only file is the text listing. *)
Definition listing_world : world :=
  {| w_files := {[ "listing.txt" := listing_text ]};
     w_dirs := ∅; w_stdin := []; w_trace := [] |}.

(** ** The rest of the package *)

(** [create_catalogue_traversing(directory, file_name)] (traverser.py,
    lines 73-91).  The directory tree is not part of [world]: [walk d] is
    [list(os.walk(d))], which is empty when [d] is not a directory. *)
Definition create_catalogue_traversing (walk : string -> catalogue_t) (P : codec)
    (directory file_name : string) : M unit :=
  b <- isfile file_name ;;
  if b then raise (ValueError "There already exists a file with same name.")
  else
    let catalogue := walk directory in
    let catalogue := get_relative catalogue in
    dump_file P catalogue file_name.

(** [create_catalogue(fname, catalogue_name)] (mydlib.py, lines 6-16). *)
Definition create_catalogue (walk : string -> catalogue_t) (P : codec)
    (fname catalogue_name : string) : M unit :=
  b <- isfile fname ;;
  if b then create_catalogue_txt P fname catalogue_name
  else create_catalogue_traversing walk P fname catalogue_name.

(** [create_library(catalogue_name)] (mydlib.py, lines 19-25): the replay
    calls [get_book(file_name=...)], that is with the defaults
    [book_name=''] and [auto=True]. *)
Definition create_library (N : net) (P : codec) (catalogue_name : string) : M unit :=
  traverse_catalogue P catalogue_name (fun file_name => get_book N "" file_name true).

(** [get_book_libgen(book_name, path, auto)] (mydlib.py, lines 28-34). *)
Definition get_book_libgen (N : net) (book_name path : string) (auto : bool) : M unit :=
  get_book N book_name path auto ;; ret tt.

(** ** Notions used in the statements *)

(** A line of the text file without its final newline (lines 48-49). *)
Definition strip_nl (raw : string) : string :=
  match last_char raw with
  | Ok c => if Ascii.eqb c newline then drop_last raw else raw
  | Raise _ => raw
  end.

(** Line 114-116 of the replay: the directory made for a catalogue path. *)
Definition norm_path (replace_path path_ : string) : result string :=
  let p := str_replace path_ replace_path "" in
  let? c := first_char p in
  Ok (if Ascii.eqb c slash then drop_first p else p).

(** The calls a replay makes for one entry whose directory is [p]. *)
Definition entry_events (p : string) (e : entry) : list event :=
  EvMkdir p :: map (fun f => EvAction (path_join p f)) (entry_files e).

Fixpoint replay_events (ps : list string) (catalogue : catalogue_t) : list event :=
  match ps, catalogue with
  | p :: ps', e :: catalogue' => entry_events p e ++ replay_events ps' catalogue'
  | _, _ => []
  end.

(** The book name [download] derives from a file name (line 126). *)
Definition derived_name (file_name : string) : string :=
  hd EmptyString (str_split dot (List.last (str_split slash file_name) EmptyString)).

(** A remote side whose searches find nothing. *)
Definition silent_net : net :=
  {| get_results := fun _ => Ok [];
     info_href := fun _ => Raise RequestException;
     http_body := fun _ => Raise RequestException;
     http_partial := fun _ => None |}.

(** A line names a file when it contains a dot (lines 53 and 59). *)
Definition is_file_line (line : string) : bool := contains_char dot line.
Definition is_dir_line (line : string) : bool := negb (contains_char dot line).
Definition slash_free (f : string) : Prop := contains_char slash f = false.

(** A world whose only file is a catalogue without entries. *)
Definition empty_catalogue_world : world :=
  {| w_files := {[ "none.cat" := ref_dumps [] ]};
     w_dirs := ∅; w_stdin := []; w_trace := [] |}.

(** An action that returns without changing the world on every non-empty
    file name. *)
Definition quiet {A} (action_function : string -> M A) : Prop :=
  forall f w, f <> EmptyString -> exists x, action_function f w = (Ok x, w).

(** An action that does nothing. *)
Definition no_action (file_name : string) : M unit := ret tt.

(** A world that holds the catalogue file and nothing else. *)
Definition fresh_world : world :=
  {| w_files := {[ "books.cat" := ref_dumps sample_catalogue ]};
     w_dirs := ∅; w_stdin := []; w_trace := [] |}.

(** The name [download] searches for (lines 124-128), when one of the two
    names is given. *)
Definition query_name (book_name file_name : string) : string :=
  if String.eqb book_name "" then derived_name file_name else book_name.

(** A result row with two mirror cells and a last cell. *)
Definition row_full : list td :=
  row_nine ++ [link_cell "http://libgen.example/book/index.php?md5=AAAA";
               link_cell "http://93.174.95.29/_ads/AAAA"; cell "[edit]"].

(** A remote side whose search returns a header row and [row_full]. *)
Definition one_hit_net : net :=
  {| get_results := fun _ => Ok [[]; row_full];
     info_href := fun page => Ok "main/AAAA";
     http_body := fun link => Ok "%PDF-1.4";
     http_partial := fun _ => None |}.

(** A remote side whose search returns a header, [row_full] and the
    short [row_nine]. *)
Definition short_row_net : net :=
  {| get_results := fun _ => Ok [[]; row_full; row_nine];
     info_href := fun page => Ok "main/AAAA";
     http_body := fun link => Ok "%PDF-1.4";
     http_partial := fun _ => None |}.

(** The record of [row_full]. *)
Definition info_full : info_t :=
  {| author := "A. Author"; title := "Example Book"; pages := 353;
     lang := "English"; size := "3 Mb"; type := "pdf";
     links := ["http://libgen.example/book/index.php?md5=AAAA";
               "http://93.174.95.29/_ads/AAAA"];
     code := "index.php?md5=AAAA";
     download_page := Some "http://93.174.95.29/_ads/AAAA" |}.

(** A world in which the operator types the numbers 1 and 0. *)
Definition typing_world : world :=
  {| w_files := ∅; w_dirs := ∅; w_stdin := [[1; 0]]; w_trace := [] |}.

(** A result row whose only mirror cell points to another host. *)
Definition row_elsewhere : list td :=
  row_nine ++ [link_cell "http://libgen.example/book/index.php?md5=BBBB"; cell "[edit]"].

Definition info_elsewhere : info_t :=
  {| author := "A. Author"; title := "Example Book"; pages := 353;
     lang := "English"; size := "3 Mb"; type := "pdf";
     links := ["http://libgen.example/book/index.php?md5=BBBB"];
     code := "index.php?md5=BBBB";
     download_page := None |}.

(** A directory walk that knows one tree, "home/books". *)
Definition sample_walk (directory : string) : catalogue_t :=
  if String.eqb directory "home/books"
  then [("home/books", ["empty"; "sub"], ["a.pdf"]);
        ("home/books/empty", [], []);
        ("home/books/sub", [], ["b.pdf"; "c.djvu"])]
  else [].

(** A path whose components are all names: none is empty, dot or
    dot-dot. *)
Definition plain (path : string) : Prop :=
  Forall (fun c => c <> EmptyString /\ c <> "." /\ c <> "..") (str_split slash path).

(** The directories passed on the way down [comps] from [stack]. *)
Fixpoint prefix_keys (stack : list string) (comps : list string) : list string :=
  match comps with
  | [] => []
  | c :: comps' => path_key false (stack ++ [c]) :: prefix_keys (stack ++ [c]) comps'
  end.

(** The directories above a path: for a/b/c they are a and a/b. *)
Definition ancestors (path : string) : list string :=
  prefix_keys [] (removelast (str_split slash path)).

(** The directories [ps] can be made one after the other when the
    directories [dirs] exist: each is a plain path that is new and whose
    ancestors exist by then. *)
Fixpoint ready (dirs : gset string) (ps : list string) : Prop :=
  match ps with
  | [] => True
  | p :: ps' =>
      plain p /\ Forall (fun q => q ∈ dirs) (ancestors p) /\ (p ∉ dirs)
      /\ ready ({[p]} ∪ dirs) ps'
  end.

(** * Properties *)

(** ** Text-listing parser *)

(** C2. The listing books, books/a.pdf, books/sub, books/sub/b.pdf is
    parsed into exactly the two entries ("books", [], ["a.pdf"]) and
    ("books/sub", [], ["b.pdf"]), whether the lines are given bare or read
    from a text that ends every line with a newline; create_catalogue_txt
    run on a file holding that text stores a catalogue that loads as the
    same two entries. *)
Theorem parse_listing_two_entries :
  parse_lines listing_lines
    = Ok [("books", [], ["a.pdf"]); ("books/sub", [], ["b.pdf"])]
  /\ parse_lines (py_lines listing_text)
    = Ok [("books", [], ["a.pdf"]); ("books/sub", [], ["b.pdf"])]
  /\ fst (create_catalogue_txt ref_codec "listing.txt" "books.cat" listing_world)
    = Ok tt
  /\ fst (load_file ref_codec "books.cat"
            (snd (create_catalogue_txt ref_codec "listing.txt" "books.cat"
                    listing_world)))
    = Ok [("books", [], ["a.pdf"]); ("books/sub", [], ["b.pdf"])].
Proof. repeat split; vm_compute; reflexivity. Qed.

(** What the loop does with its first line, for any rest of the input. *)
Lemma first_line_step (raw : string) (rest : list string) (c : ascii) :
  last_char raw = Ok c ->
  let line := if Ascii.eqb c newline then drop_last raw else raw in
  parse_lines (raw :: rest)
    = if contains_char dot line then txt_loop rest 1 [line] "./" []
      else txt_loop rest 1 [] line [].
Proof.
  intros Hc line. unfold parse_lines. cbn [txt_loop]. rewrite Hc.
  cbn [rbind]. fold line. reflexivity.
Qed.

(** C3. On the one-line listing docs/a.pdf the parser opens the synthetic
    root "./" and records the first line as it stands, "docs/a.pdf": the
    path prefix and the slash are still there, whereas a file line met
    later under the same root is recorded without them. *)
Theorem first_line_file_recorded_unstripped :
  parse_lines ["docs/a.pdf"] = Ok [("./", [], ["docs/a.pdf"])]
  /\ contains_char slash "docs/a.pdf" = true
  /\ spec_strip "docs/a.pdf" = "a.pdf"
  /\ parse_lines ["x.txt"; "./docs/a.pdf"] = Ok [("./", [], ["x.txt"; "docsa.pdf"])].
Proof. repeat split; vm_compute; reflexivity. Qed.

(** ** Page count *)

Lemma isdecimal_value (c : ascii) : isdecimal c = true -> 0 <= digit_value c <= 9.
Proof.
  unfold isdecimal, digit_value. intros H.
  apply andb_prop in H as [H1 H2].
  apply Nat.leb_le in H1. apply Nat.leb_le in H2. lia.
Qed.

Lemma str_filter_list (pred : ascii -> bool) (raw : string) :
  list_ascii_of_string (str_filter pred raw)
    = List.filter pred (list_ascii_of_string raw).
Proof.
  induction raw as [|c raw IH]; [reflexivity|].
  cbn [str_filter list_ascii_of_string List.filter].
  destruct (pred c); [cbn [list_ascii_of_string]; rewrite IH|]; auto.
Qed.

Lemma str_length_list (s : string) :
  String.length s = length (list_ascii_of_string s).
Proof. induction s as [|c s IH]; [reflexivity | cbn; now rewrite IH]. Qed.

(** [int_digits] succeeds exactly on decimal digits, with their value. *)
Lemma int_digits_decimal (s : string) (acc : Z) :
  int_digits acc s
    = if forallb isdecimal (list_ascii_of_string s)
      then Some (fold_left (fun a d => 10 * a + d)
                   (map digit_value (list_ascii_of_string s)) acc)
      else None.
Proof.
  revert acc. induction s as [|c s IH]; intros acc; [reflexivity|].
  cbn [int_digits list_ascii_of_string forallb map fold_left].
  destruct (isdecimal c); [apply IH | reflexivity].
Qed.

Lemma digits_fold_nonneg (ds : list Z) (acc : Z) :
  Forall (fun d => 0 <= d) ds -> 0 <= acc ->
  0 <= fold_left (fun a d => 10 * a + d) ds acc.
Proof.
  revert acc. induction ds as [|d ds IH]; intros acc Hds Hacc; [exact Hacc|].
  inversion Hds; subst. cbn [fold_left]. apply IH; [assumption | lia].
Qed.

Lemma decimal_value_nonneg (l : list ascii) :
  forallb isdecimal l = true -> 0 <= decimal_value l.
Proof.
  intros H. unfold decimal_value. apply digits_fold_nonneg; [|lia].
  induction l as [|c l IH]; [constructor|].
  cbn [forallb] in H. apply andb_prop in H as [Hc Hl].
  cbn [map]. constructor; [apply isdecimal_value in Hc; lia | apply IH; exact Hl].
Qed.

Lemma page_count_digits (raw : string) : page_count raw = spec_page_count raw.
Proof.
  unfold page_count, spec_page_count, py_int, parsable, decimal_value, kept.
  rewrite <- (str_filter_list isdigit raw).
  destruct (str_filter isdigit raw) as [|c val] eqn:Hf; [reflexivity|].
  rewrite <- str_length_list, int_digits_decimal.
  replace (String.length (String c val) =? 0)%nat with false by reflexivity.
  cbn [negb andb]. rewrite Nat.ltb_antisym.
  destruct (forallb isdecimal (list_ascii_of_string (String c val)));
    destruct (String.length (String c val) <=? int_max_str_digits)%nat; reflexivity.
Qed.

(** C4. The page count of every raw field is what the design document
    says: the characters that are not digits are dropped, and the count
    is the decimal value of the remainder when the remainder parses, 0
    otherwise.  The remainder does not parse, and the count is 0, when it
    is empty, when it holds a digit that int does not read, and when it is
    longer than the interpreter converts.  The count is never negative;
    "353 p." gives 353, "N/A" gives 0 and "" gives 0. *)
Theorem page_count_parsing :
  (forall raw, page_count raw = spec_page_count raw)
  /\ (forall raw, kept raw = [] -> page_count raw = 0)
  /\ (forall raw c, In c (kept raw) -> isdecimal c = false -> page_count raw = 0)
  /\ (forall raw, (int_max_str_digits < length (kept raw))%nat -> page_count raw = 0)
  /\ (forall raw, kept raw <> [] -> forallb isdecimal (kept raw) = true ->
        (length (kept raw) <= int_max_str_digits)%nat ->
        page_count raw = decimal_value (kept raw))
  /\ (forall raw, 0 <= page_count raw)
  /\ page_count "353 p." = 353
  /\ page_count "N/A" = 0
  /\ page_count "" = 0.
Proof.
  split; [exact page_count_digits|].
  split.
  { intros raw H. rewrite page_count_digits. unfold spec_page_count. rewrite H.
    reflexivity. }
  split.
  { intros raw c Hin Hc. rewrite page_count_digits. unfold spec_page_count, parsable.
    assert (Hf : forallb isdecimal (kept raw) = false).
    { destruct (forallb isdecimal (kept raw)) eqn:Hall; [|reflexivity].
      rewrite forallb_forall in Hall. rewrite (Hall c Hin) in Hc. discriminate. }
    rewrite Hf, andb_false_r. reflexivity. }
  split.
  { intros raw Hlen. rewrite page_count_digits. unfold spec_page_count, parsable.
    destruct (length (kept raw) <=? int_max_str_digits)%nat eqn:Hle;
      [apply Nat.leb_le in Hle; lia|].
    rewrite andb_false_r. reflexivity. }
  split.
  { intros raw Hne Hall Hlen. rewrite page_count_digits.
    unfold spec_page_count, parsable. rewrite Hall.
    destruct (kept raw) as [|c l]; [contradiction|].
    apply Nat.leb_le in Hlen. rewrite Hlen. reflexivity. }
  split.
  { intros raw. rewrite page_count_digits. unfold spec_page_count, parsable.
    destruct (forallb isdecimal (kept raw)) eqn:Hall;
      [|rewrite andb_false_r; cbn [andb]; lia].
    destruct (negb (length (kept raw) =? 0)%nat
              && true && (length (kept raw) <=? int_max_str_digits)%nat);
      [apply decimal_value_nonneg; exact Hall | lia]. }
  repeat split; vm_compute; reflexivity.
Qed.

(** ** Automatic selection *)

(** [max_from] returns the first element of [best :: l] that carries the
    largest key. *)
Lemma max_from_first {A} (key : A -> Z) (l : list A) (best : A) :
  exists i : nat,
    (best :: l) !! i = Some (max_from key best l)
    /\ (forall y, In y (best :: l) -> key y <= key (max_from key best l))
    /\ (forall (j : nat) y, (j < i)%nat -> (best :: l) !! j = Some y ->
          key y < key (max_from key best l)).
Proof.
  revert best. induction l as [|x l IH]; intros best.
  - exists 0%nat. cbn. split; [reflexivity|]. split.
    + intros y [<-|[]]. lia.
    + intros j y Hj. lia.
  - cbn [max_from]. destruct (key best <? key x) eqn:Hlt.
    + apply Z.ltb_lt in Hlt.
      destruct (IH x) as (i & Hi & Hall & Hbefore).
      exists (S i). split; [exact Hi|]. split.
      * intros y [<-|Hy]; [|apply Hall; exact Hy].
        specialize (Hall x (or_introl eq_refl)). lia.
      * intros [|j] y Hj Hy.
        -- cbn in Hy. injection Hy as <-.
           specialize (Hall x (or_introl eq_refl)). lia.
        -- apply (Hbefore j); [lia | exact Hy].
    + apply Z.ltb_ge in Hlt.
      destruct (IH best) as (i & Hi & Hall & Hbefore).
      destruct i as [|i].
      * exists 0%nat. split; [exact Hi|]. split.
        -- intros y [<-|[<-|Hy]].
           ++ apply Hall. left. reflexivity.
           ++ specialize (Hall best (or_introl eq_refl)). lia.
           ++ apply Hall. right. exact Hy.
        -- intros j y Hj. lia.
      * exists (S (S i)). split; [exact Hi|]. split.
        -- intros y [<-|[<-|Hy]].
           ++ apply Hall. left. reflexivity.
           ++ specialize (Hall best (or_introl eq_refl)). lia.
           ++ apply Hall. right. exact Hy.
        -- intros [|[|j]] y Hj Hy.
           ++ apply (Hbefore 0%nat); [lia | exact Hy].
           ++ cbn in Hy. injection Hy as <-.
              assert (key best < key (max_from key best l))
                by (apply (Hbefore 0%nat); [lia | reflexivity]).
              lia.
           ++ apply (Hbefore (S j)); [lia | exact Hy].
Qed.

(** C5. On a non-empty list of records the automatic policy returns
    exactly one record, leaves the world untouched, and that record is the
    first one in the list whose page count is the largest of the list; on
    the page counts 100, 353, 353, 40 it is the record at index 1. *)
Theorem auto_selects_first_maximum :
  (forall (x : info_t) (xs : list info_t) (w : world),
      exists (r : info_t) (i : nat),
        to_be_downloaded true (x :: xs) w = (Ok [r], w)
        /\ (x :: xs) !! i = Some r
        /\ (forall y, In y (x :: xs) -> pages y <= pages r)
        /\ (forall (j : nat) y, (j < i)%nat -> (x :: xs) !! j = Some y ->
              pages y < pages r))
  /\ to_be_downloaded true page_samples empty_world
       = (Ok [sample_info "second" 353], empty_world)
  /\ page_samples !! 1%nat = Some (sample_info "second" 353).
Proof.
  split.
  - intros x xs w.
    destruct (max_from_first comparing xs x) as (i & Hi & Hall & Hbefore).
    exists (max_from comparing x xs), i.
    split; [reflexivity|]. split; [exact Hi|]. split; assumption.
  - split; reflexivity.
Qed.

(** ** Download-page link *)

(** What [get_download_page] computes: the first link that contains the
    mirror address anywhere. *)
Lemma get_download_page_first_containing (links : list string) :
  get_download_page links = List.find (str_contains mirror_host) links.
Proof.
  induction links as [|i links IH]; [reflexivity|].
  cbn [get_download_page List.find].
  destruct (str_contains mirror_host i); [reflexivity | exact IH].
Qed.

(** When the mirror address occurs in a link only at its start, the code
    agrees with the design document. *)
Lemma get_download_page_prefix_agree (links : list string) :
  Forall (fun i => str_contains mirror_host i = startswith mirror_host i) links ->
  get_download_page links = spec_download_page links.
Proof.
  induction 1 as [|i links Hi _ IH]; [reflexivity|].
  cbn [get_download_page spec_download_page]. rewrite Hi, IH. reflexivity.
Qed.

(** C7. On two links, the first from another host with the mirror address
    inside its query string and the second starting with the mirror
    address, the code returns the first, which does not start with the
    mirror address; the first link with that prefix is the second. *)
Theorem download_page_matches_inside_link :
  get_download_page decoy_links
    = Some "http://example.org/go?to=http://93.174.95.29/_ads/AAAA"
  /\ startswith mirror_host "http://example.org/go?to=http://93.174.95.29/_ads/AAAA"
     = false
  /\ spec_download_page decoy_links = Some "http://93.174.95.29/_ads/BBBB".
Proof. repeat split; vm_compute; reflexivity. Qed.

(** ** Record extraction *)

Lemma hrefs_length (cells : list td) (ls : list string) :
  hrefs cells = Ok ls -> length ls = length cells.
Proof.
  revert ls. induction cells as [|x cells IH]; intros ls H; cbn in H.
  - injection H as <-. reflexivity.
  - destruct (cell_href x) as [h|e]; [|discriminate]. cbn in H.
    destruct (hrefs cells) as [hs|e]; [|discriminate]. cbn in H.
    injection H as <-. cbn. f_equal. apply IH. reflexivity.
Qed.

Lemma hrefs_ok_iff (cells : list td) :
  (exists ls, hrefs cells = Ok ls) <-> Forall has_href cells.
Proof.
  induction cells as [|x cells IH]; cbn.
  - split; [constructor | eauto].
  - split.
    + intros [ls H]. destruct (cell_href x) as [h|e] eqn:Hx; [|discriminate].
      cbn in H. destruct (hrefs cells) as [hs|e]; [|discriminate].
      constructor; [exists h; exact Hx | apply IH; eauto].
    + intros H. inversion H as [|? ? [h Hx] Hrest]; subst.
      apply IH in Hrest as [hs Hhs]. rewrite Hx, Hhs. cbn. eauto.
Qed.

Lemma py_index_first {A} (l : list A) :
  py_index l 0 = match l with [] => Raise IndexError | x :: _ => Ok x end.
Proof.
  destruct l as [|x l]; [reflexivity|].
  unfold py_index. cbn [length].
  replace (0 <? 0) with false by reflexivity.
  replace (0 <? 0) with false by reflexivity.
  destruct (Z.of_nat (S (length l)) <=? 0) eqn:H; [apply Z.leb_le in H; lia|].
  reflexivity.
Qed.

(** The outcome of [get_info] on a row that has its nine leading cells. *)
Lemma get_info_long (c0 c1 c2 c3 c4 c5 c6 c7 c8 : td) (rest : list td) :
  get_info (c0 :: c1 :: c2 :: c3 :: c4 :: c5 :: c6 :: c7 :: c8 :: rest)
  = let? ls := hrefs (take (length rest - 1) rest) in
    let? l0 := py_index ls 0 in
    Ok {| author := text c1; title := text c2; pages := page_count (text c5);
          lang := text c6; size := text c7; type := text c8;
          links := ls; code := get_code l0;
          download_page := get_download_page ls |}.
Proof.
  unfold get_info, slice_to_last. cbn [cell_at nth_error rbind length drop skipn].
  replace (S (S (S (S (S (S (S (S (S (length rest))))))))) - 1 - 9)%nat
    with (length rest - 1)%nat by lia.
  reflexivity.
Qed.

Lemma get_info_short (temp : list td) :
  (length temp < 11)%nat -> get_info temp = Raise IndexError.
Proof.
  intros Hlen.
  destruct temp as [|c0 [|c1 [|c2 [|c3 [|c4 [|c5 [|c6 [|c7 [|c8 rest]]]]]]]]];
    try reflexivity.
  rewrite get_info_long.
  destruct rest as [|r0 [|r1 rest]]; [reflexivity | reflexivity |].
  cbn in Hlen. lia.
Qed.

Lemma get_info_ok_iff (temp : list td) :
  (exists info, get_info temp = Ok info)
  <-> (11 <= length temp)%nat /\ Forall has_href (slice_to_last 9 temp).
Proof.
  split.
  - intros [info H].
    destruct (Nat.lt_ge_cases (length temp) 11) as [Hlt|Hge].
    { rewrite (get_info_short temp Hlt) in H. discriminate. }
    split; [exact Hge|].
    unfold get_info in H.
    destruct (cell_at temp 1); [|discriminate].
    destruct (cell_at temp 2); [|discriminate].
    destruct (cell_at temp 5); [|discriminate].
    destruct (cell_at temp 6); [|discriminate].
    destruct (cell_at temp 7); [|discriminate].
    destruct (cell_at temp 8); [|discriminate].
    cbn [rbind] in H.
    destruct (hrefs (slice_to_last 9 temp)) as [ls|e] eqn:Hls; [|discriminate].
    apply hrefs_ok_iff. eauto.
  - intros [Hlen Hall].
    destruct temp as [|c0 [|c1 [|c2 [|c3 [|c4 [|c5 [|c6 [|c7 [|c8 rest]]]]]]]]];
      cbn in Hlen; try lia.
    rewrite get_info_long.
    assert (Hs : slice_to_last 9
              (c0 :: c1 :: c2 :: c3 :: c4 :: c5 :: c6 :: c7 :: c8 :: rest)
            = take (length rest - 1) rest).
    { unfold slice_to_last. cbn [length drop skipn]. f_equal; lia. }
    rewrite Hs in Hall. apply hrefs_ok_iff in Hall as [ls Hls].
    rewrite Hls. cbn [rbind]. rewrite py_index_first.
    destruct ls as [|l0 ls].
    + apply hrefs_length in Hls. rewrite length_take in Hls. cbn in Hls. lia.
    + cbn [rbind]. eauto.
Qed.

Lemma get_info_links_nonempty (temp : list td) (info : info_t) :
  get_info temp = Ok info -> links info <> [].
Proof.
  intros H.
  destruct (Nat.lt_ge_cases (length temp) 11) as [Hlt|Hge].
  { rewrite (get_info_short temp Hlt) in H. discriminate. }
  destruct temp as [|c0 [|c1 [|c2 [|c3 [|c4 [|c5 [|c6 [|c7 [|c8 rest]]]]]]]]];
    cbn in Hge; try lia.
  rewrite get_info_long in H.
  destruct (hrefs (take (length rest - 1) rest)) as [ls|e]; [|discriminate].
  cbn [rbind] in H. rewrite py_index_first in H.
  destruct ls as [|l0 ls]; [discriminate|].
  cbn [rbind] in H. injection H as <-. discriminate.
Qed.

(** C8 fails as stated: a row of nine cells has every positional column
    the extractor reads and yields an empty list of mirror links, yet
    extraction raises; the same holds with a tenth cell. *)
Lemma row_without_mirror_links_raises :
  length row_nine = 9%nat
  /\ is_ok (cell_at row_nine 8) = true
  /\ hrefs (slice_to_last 9 row_nine) = Ok []
  /\ get_info row_nine = Raise IndexError
  /\ hrefs (slice_to_last 9 (row_nine ++ [link_cell "http://93.174.95.29/_ads/AAAA"]))
     = Ok []
  /\ get_info (row_nine ++ [link_cell "http://93.174.95.29/_ads/AAAA"])
     = Raise IndexError.
Proof. repeat split; vm_compute; reflexivity. Qed.

(** C8, amended. Extraction returns a record exactly when the row has at
    least eleven cells and every cell from the tenth up to the one before
    the last carries an anchor with an href; every row of fewer than
    eleven cells raises IndexError; the text of the page-count cell plays
    no part in this, it only sets the page count (0 by default); a
    returned record never has an empty list of mirror links. *)
Theorem get_info_returns_iff :
  (forall temp : list td,
      (exists info, get_info temp = Ok info)
      <-> (11 <= length temp)%nat /\ Forall has_href (slice_to_last 9 temp))
  /\ (forall temp : list td,
        (length temp < 11)%nat -> get_info temp = Raise IndexError)
  /\ (forall (temp : list td) (info : info_t),
        get_info temp = Ok info ->
        links info <> []
        /\ exists c5, temp !! 5%nat = Some c5 /\ pages info = page_count (text c5)).
Proof.
  split; [exact get_info_ok_iff|]. split; [exact get_info_short|].
  intros temp info H. split; [exact (get_info_links_nonempty temp info H)|].
  destruct (Nat.lt_ge_cases (length temp) 11) as [Hlt|Hge].
  { rewrite (get_info_short temp Hlt) in H. discriminate. }
  destruct temp as [|c0 [|c1 [|c2 [|c3 [|c4 [|c5 [|c6 [|c7 [|c8 rest]]]]]]]]];
    cbn in Hge; try lia.
  exists c5. split; [reflexivity|].
  rewrite get_info_long in H.
  destruct (hrefs (take (length rest - 1) rest)) as [ls|e]; [|discriminate].
  cbn [rbind] in H. destruct (py_index ls 0); [|discriminate].
  cbn [rbind] in H. injection H as <-. reflexivity.
Qed.

(** ** The catalogue store *)

Lemma str_app_assoc (x y z : string) : (x +:+ y) +:+ z = x +:+ (y +:+ z).
Proof.
  induction x as [|c x IH]; [reflexivity|].
  change (String c ((x +:+ y) +:+ z) = String c (x +:+ (y +:+ z))).
  now rewrite IH.
Qed.

Lemma str_app_nil (x : string) : x +:+ EmptyString = x.
Proof.
  induction x as [|c x IH]; [reflexivity|].
  change (String c (x +:+ EmptyString) = String c x). now rewrite IH.
Qed.

Lemma dec_nat_enc (n : nat) (r : string) : dec_nat (enc_nat n +:+ r) = Some (n, r).
Proof.
  induction n as [|n IH]; [reflexivity|].
  change (match dec_nat (enc_nat n +:+ r) with
          | Some (m, r') => Some (S m, r')
          | None => None
          end = Some (S n, r)).
  now rewrite IH.
Qed.

Lemma dec_chars_app (s r : string) :
  dec_chars (String.length s) (s +:+ r) = Some (s, r).
Proof.
  induction s as [|c s IH]; [reflexivity|].
  change (match dec_chars (String.length s) (s +:+ r) with
          | Some (x, r') => Some (String c x, r')
          | None => None
          end = Some (String c s, r)).
  now rewrite IH.
Qed.

Lemma dec_str_enc (s r : string) : dec_str (enc_str s +:+ r) = Some (s, r).
Proof.
  unfold dec_str, enc_str. rewrite str_app_assoc, dec_nat_enc.
  apply dec_chars_app.
Qed.

Section ListCodec.
Context {A : Type} (enc : A -> string) (dec : string -> option (A * string)).
Hypothesis dec_enc : forall x r, dec (enc x +:+ r) = Some (x, r).

Lemma dec_items_enc (l : list A) (r : string) :
  dec_items dec (length l) (enc_items enc l +:+ r) = Some (l, r).
Proof.
  induction l as [|x l IH]; cbn [enc_items dec_items length]; [reflexivity|].
  now rewrite str_app_assoc, dec_enc, IH.
Qed.

Lemma dec_list_enc (l : list A) (r : string) :
  dec_list dec (enc_list enc l +:+ r) = Some (l, r).
Proof.
  unfold dec_list, enc_list. rewrite str_app_assoc, dec_nat_enc.
  apply dec_items_enc.
Qed.
End ListCodec.

Lemma dec_entry_enc (e : entry) (r : string) :
  dec_entry (enc_entry e +:+ r) = Some (e, r).
Proof.
  destruct e as [[p d] f]. unfold dec_entry, enc_entry. cbn [entry_path entry_dirs entry_files fst snd].
  rewrite !str_app_assoc, dec_str_enc.
  rewrite (dec_list_enc enc_str dec_str dec_str_enc).
  rewrite (dec_list_enc enc_str dec_str dec_str_enc).
  reflexivity.
Qed.

(** The reference codec loads what it dumped. *)
Lemma ref_codec_round_trip (c : catalogue_t) :
  pickle_loads ref_codec (pickle_dumps ref_codec c) = Ok c.
Proof.
  cbn. unfold ref_loads, ref_dumps.
  rewrite <- (str_app_nil (enc_list enc_entry c)).
  rewrite (dec_list_enc enc_entry dec_entry dec_entry_enc). reflexivity.
Qed.

Lemma write_then_read (name content : string) (w : world) :
  name <> EmptyString -> name ∉ w_dirs w ->
  exists w', write_file name content w = (Ok tt, w')
             /\ read_file name w' = (Ok content, w').
Proof.
  intros Hname Hdir. unfold write_file.
  destruct (String.eqb name "") eqn:He; [apply String.eqb_eq in He; contradiction|].
  rewrite bool_decide_eq_false_2 by exact Hdir.
  eexists. split; [reflexivity|].
  unfold read_file. cbn [w_files]. rewrite lookup_insert_eq. reflexivity.
Qed.

(** C1. With a pickle module that loads what it dumps, persisting any
    catalogue M under a usable file name succeeds, and loading that file
    afterwards yields M itself: the same entries in the same order, with
    the same paths and the same file lists, empty ones included. *)
Theorem catalogue_round_trip (P : codec) :
  (forall c, pickle_loads P (pickle_dumps P c) = Ok c) ->
  forall (catalogue : catalogue_t) (file_name : string) (w : world),
    file_name <> EmptyString -> file_name ∉ w_dirs w ->
    exists w', dump_file P catalogue file_name w = (Ok tt, w')
               /\ load_file P file_name w' = (Ok catalogue, w').
Proof.
  intros Hrt catalogue file_name w Hname Hdir.
  destruct (write_then_read file_name (pickle_dumps P catalogue) w Hname Hdir)
    as (w' & Hw & Hr).
  exists w'. split; [exact Hw|].
  unfold load_file, bind, lift. rewrite Hr, Hrt. reflexivity.
Qed.

Lemma catalogue_round_trip_witness :
  exists w', dump_file ref_codec sample_catalogue "books.cat" empty_world = (Ok tt, w')
             /\ load_file ref_codec "books.cat" w' = (Ok sample_catalogue, w').
Proof.
  apply (catalogue_round_trip ref_codec ref_codec_round_trip
           sample_catalogue "books.cat" empty_world).
  - discriminate.
  - cbn. apply not_elem_of_empty.
Defined.

(** ** Replay *)

Lemma base_dir_last_segment (first_path : string) :
  fst (base_and_replace first_path) = List.last (str_split slash first_path) EmptyString.
Proof.
  unfold base_and_replace.
  destruct (length (str_split slash first_path) <=? 1)%nat; reflexivity.
Qed.

(** C9. When the catalogue file holds a catalogue whose first path ends in
    a segment that is already a directory, the replay raises ValueError
    and hands back the world it was given: the check comes before the
    first mkdir and the first call of the action, so the directories, the
    files and the trace of calls are all unchanged. *)
Theorem replay_refuses_existing_base_dir {A} (P : codec) (file_name : string)
    (action_function : string -> M A) (w : world)
    (content : string) (first : entry) (rest : catalogue_t) :
  w_files w !! file_name = Some content ->
  pickle_loads P content = Ok (first :: rest) ->
  List.last (str_split slash (entry_path first)) EmptyString ∈ w_dirs w ->
  traverse_catalogue P file_name action_function w
    = (Raise (ValueError "Directory already exists..."), w).
Proof.
  intros Hfile Hload Hdir.
  unfold traverse_catalogue, bind, isfile, load_file, bind, read_file, lift.
  rewrite Hfile. rewrite bool_decide_eq_true_2 by eauto.
  cbv beta iota delta [negb]. rewrite Hfile. cbv beta iota.
  rewrite Hload, py_index_first. cbv beta iota.
  rewrite <- base_dir_last_segment in Hdir.
  destruct (base_and_replace (entry_path first)) as [base_dir replace_path].
  cbn [fst] in Hdir. unfold isdir.
  rewrite bool_decide_eq_true_2 by exact Hdir. reflexivity.
Qed.

Lemma replay_refuses_existing_base_dir_witness :
  traverse_catalogue ref_codec "books.cat" creator replay_world
    = (Raise (ValueError "Directory already exists..."), replay_world)
  /\ w_trace replay_world = [].
Proof.
  split; [|reflexivity].
  apply (replay_refuses_existing_base_dir ref_codec "books.cat" creator
           replay_world (ref_dumps sample_catalogue)
           ("home/books", [], ["a.pdf"])
           [("home/books/empty", [], []);
            ("home/books/sub", [], ["b.pdf"; "c.djvu"])]).
  - vm_compute. reflexivity.
  - exact (ref_codec_round_trip sample_catalogue).
  - vm_compute. reflexivity.
Defined.

(** ** Destination file name *)

Lemma write_file_trace (name content : string) (w : world) :
  w_trace (snd (write_file name content w)) = w_trace w.
Proof.
  unfold write_file. destruct (String.eqb name ""); [reflexivity|].
  destruct (bool_decide (name ∈ w_dirs w)); reflexivity.
Qed.

Lemma write_file_ok (name content : string) (w : world) :
  name <> EmptyString -> name ∉ w_dirs w ->
  exists w', write_file name content w = (Ok tt, w')
             /\ w_files w' = <[name := content]> (w_files w)
             /\ w_dirs w' = w_dirs w /\ w_trace w' = w_trace w.
Proof.
  intros Hname Hdir. unfold write_file.
  destruct (String.eqb name "") eqn:He; [apply String.eqb_eq in He; contradiction|].
  rewrite bool_decide_eq_false_2 by exact Hdir.
  eexists. split; [reflexivity|]. repeat split.
Qed.

Lemma retrieve_trace (N : net) (download_link file_name : string) (w : world) :
  w_trace (snd (retrieve N download_link file_name w))
    = w_trace w ++ [EvRetrieve download_link file_name].
Proof.
  unfold retrieve, bind at 1, log.
  destruct (http_body N download_link) as [body|e].
  - apply write_file_trace.
  - destruct (http_partial N download_link) as [part|]; [|reflexivity].
    unfold bind, raise.
    match goal with |- context [write_file ?n ?b ?w1] =>
      pose proof (write_file_trace n b w1) as Ht;
      destruct (write_file n b w1) as [[[]|e'] w2] end; exact Ht.
Qed.

Lemma retrieve_ok (N : net) (download_link file_name body : string) (w : world) :
  http_body N download_link = Ok body ->
  file_name <> EmptyString -> file_name ∉ w_dirs w ->
  exists w', retrieve N download_link file_name w = (Ok tt, w')
    /\ w_files w' = <[file_name := body]> (w_files w)
    /\ w_dirs w' = w_dirs w
    /\ w_trace w' = w_trace w ++ [EvRetrieve download_link file_name].
Proof.
  intros Hb Hname Hdir. unfold retrieve, bind, log. rewrite Hb.
  match goal with |- context [write_file _ _ ?w1] =>
    destruct (write_file_ok file_name body w1 Hname Hdir) as (w' & Hw & Hf & Hd & Ht) end.
  exists w'. repeat split; assumption.
Qed.

Lemma retrieve_ok_name (N : net) (download_link file_name : string) (w w' : world) :
  retrieve N download_link file_name w = (Ok tt, w') -> file_name <> EmptyString.
Proof.
  unfold retrieve, bind at 1, log. intros H Hn. subst file_name.
  destruct (http_body N download_link) as [body|e].
  - discriminate.
  - destruct (http_partial N download_link) as [part|]; discriminate.
Qed.

Lemma retrieve_stdin (N : net) (download_link file_name : string) (w : world) :
  w_stdin (snd (retrieve N download_link file_name w)) = w_stdin w.
Proof.
  unfold retrieve, bind at 1, log.
  assert (Hw : forall b w1, w_stdin (snd (write_file file_name b w1)) = w_stdin w1).
  { intros b w1. unfold write_file. destruct (String.eqb file_name ""); [reflexivity|].
    destruct (bool_decide (file_name ∈ w_dirs w1)); reflexivity. }
  destruct (http_body N download_link) as [body|e].
  - rewrite Hw. reflexivity.
  - destruct (http_partial N download_link) as [part|]; [|reflexivity].
    unfold bind, raise.
    match goal with |- context [write_file ?n ?b ?w1] =>
      pose proof (Hw b w1) as Ht;
      destruct (write_file n b w1) as [[[]|e'] w2] end; exact Ht.
Qed.

(** One iteration of the loop, outcome by outcome. *)
Lemma download_step_run (N : net) (final : info_t) (file_name : string) (w : world) :
  download_step N final file_name w =
    match get_download_link N (download_page final) with
    | Raise e => (Raise e, w)
    | Ok link =>
        match retrieve N link (step_name final file_name) w with
        | (Ok _, w2) => (Ok (step_name final file_name), w2)
        | (Raise e, w2) => (Raise e, w2)
        end
    end.
Proof.
  unfold download_step, bind at 1, lift, step_name.
  destruct (get_download_link N (download_page final)) as [link|e]; [|reflexivity].
  unfold bind at 1, ret.
  match goal with |- context [retrieve N link ?n w] =>
    destruct (retrieve N link n w) as [[[]|e] w2] end; reflexivity.
Qed.

(** The claim as stated for C6 fails on the second of two selected
    records: without a destination name both are streamed to
    "Example Bookpdf", the name of the first, while the title and
    lower-cased type of the second make "Other Titledjvu". *)
Lemma second_record_not_named_after_itself :
  w_trace (snd (download_loop echo_net two_finals "" empty_world))
    = [EvRetrieve "http://93.174.95.29/p1" "Example Bookpdf";
       EvRetrieve "http://93.174.95.29/p2" "Example Bookpdf"]
  /\ map (fun final => title final +:+ str_lower (type final)) two_finals
     = ["Example Bookpdf"; "Other Titledjvu"]
  /\ "Example Bookpdf" <> "Other Titledjvu".
Proof. split; [vm_compute; reflexivity|]. split; [reflexivity | discriminate]. Qed.

(** C6, amended. When no destination name is supplied, the first
    selected record of the loop (the only one under the automatic policy)
    is streamed under its title followed by its lower-cased file type,
    nothing in between: when its download link resolves, that is the name
    of the first call of retrieve the loop makes and of the only call of
    its first iteration, and, when the body arrives and the name can be
    opened, the name of the file that receives the body.  The lower-cased
    "PDF" is "pdf", so "Example Book" gives "Example Bookpdf". *)
Theorem default_destination_name :
  (forall (N : net) (final : info_t) (w : world) (link : string),
      get_download_link N (download_page final) = Ok link ->
      let name := title final +:+ str_lower (type final) in
      w_trace (snd (download_step N final "" w))
        = w_trace w ++ [EvRetrieve link name]
      /\ (forall rest, exists evs,
            w_trace (snd (download_loop N (final :: rest) "" w))
              = w_trace w ++ EvRetrieve link name :: evs)
      /\ (forall body, http_body N link = Ok body ->
            name <> EmptyString -> name ∉ w_dirs w ->
            exists w', download_step N final "" w = (Ok name, w')
                       /\ w_files w' !! name = Some body))
  /\ title (sample_info "Example Book" 353) +:+ str_lower (type (sample_info "Example Book" 353))
     = "Example Bookpdf".
Proof.
  split; [|reflexivity].
  intros N final w link Hlink name.
  assert (Hstep : w_trace (snd (download_step N final "" w))
                  = w_trace w ++ [EvRetrieve link name]).
  { rewrite download_step_run, Hlink. change (step_name final "") with name.
    pose proof (retrieve_trace N link name w) as Ht.
    destruct (retrieve N link name w) as [[[]|e] w2]; exact Ht. }
  split; [exact Hstep|]. split.
  - intros rest. cbn [download_loop]. unfold bind.
    destruct (download_step N final "" w) as [[n|e] w1].
    + cbn [snd] in Hstep.
      assert (Hgrow : forall finals fn w0, exists evs,
                 w_trace (snd (download_loop N finals fn w0)) = w_trace w0 ++ evs).
      { induction finals as [|f finals IH]; intros fn w0.
        - exists []. cbn. rewrite app_nil_r. reflexivity.
        - cbn [download_loop]. unfold bind.
          assert (Hs : exists evs, w_trace (snd (download_step N f fn w0))
                                   = w_trace w0 ++ evs).
          { rewrite download_step_run.
            destruct (get_download_link N (download_page f)) as [l|e0].
            - pose proof (retrieve_trace N l (step_name f fn) w0) as Ht.
              destruct (retrieve N l (step_name f fn) w0) as [[[]|e0] w2]; eauto.
            - exists []. cbn. rewrite app_nil_r. reflexivity. }
          destruct Hs as (evs & Hs).
          destruct (download_step N f fn w0) as [[n0|e0] w2]; cbn [snd] in Hs.
          + destruct (IH n0 w2) as (evs' & He). exists (evs ++ evs').
            rewrite He, Hs, <- app_assoc. reflexivity.
          + exists evs. exact Hs. }
      destruct (Hgrow rest n w1) as (evs & He). exists evs.
      rewrite He, Hstep, <- app_assoc. reflexivity.
    + exists []. exact Hstep.
  - intros body Hbody Hname Hdir.
    destruct (retrieve_ok N link name body w Hbody Hname Hdir)
      as (w' & Hr & Hf & _).
    exists w'. split.
    + rewrite download_step_run, Hlink. change (step_name final "") with name.
      rewrite Hr. reflexivity.
    + rewrite Hf. apply lookup_insert_eq.
Qed.

Lemma default_destination_name_witness :
  w_trace (snd (download_step sample_net (sample_info "Example Book" 353) "" empty_world))
    = [EvRetrieve "http://93.174.95.29/get.php?md5=1" "Example Bookpdf"]
  /\ exists w', download_step sample_net (sample_info "Example Book" 353) "" empty_world
                = (Ok "Example Bookpdf", w')
                /\ w_files w' !! "Example Bookpdf" = Some "%PDF-1.4".
Proof.
  destruct (proj1 default_destination_name sample_net
              (sample_info "Example Book" 353) empty_world
              "http://93.174.95.29/get.php?md5=1" eq_refl) as (Ht & _ & Hf).
  split; [exact Ht|].
  apply (Hf "%PDF-1.4"); [reflexivity | discriminate | apply not_elem_of_empty].
Defined.

(** ** The destination name across the loop *)

Lemma step_name_given (final : info_t) (file_name : string) :
  file_name <> EmptyString -> step_name final file_name = file_name.
Proof.
  intros H. unfold step_name.
  destruct (String.eqb file_name "") eqn:He; [|reflexivity].
  apply String.eqb_eq in He. contradiction.
Qed.

Lemma download_loop_cons (N : net) (final : info_t) (finals : list info_t)
    (file_name : string) (w : world) :
  download_loop N (final :: finals) file_name w =
    match download_step N final file_name w with
    | (Ok n, w') => download_loop N finals n w'
    | (Raise e, w') => (Raise e, w')
    end.
Proof. reflexivity. Qed.

(** One iteration calls retrieve at most once, under [step_name]; when it
    completes, it leaves that name, which is not empty, in [file_name]. *)
Lemma download_step_outcome (N : net) (final : info_t) (file_name : string) (w : world) :
  exists ls,
    w_trace (snd (download_step N final file_name w))
      = w_trace w ++ retrieve_events (step_name final file_name) ls
    /\ (forall n w', download_step N final file_name w = (Ok n, w') ->
          n = step_name final file_name /\ n <> EmptyString).
Proof.
  rewrite download_step_run.
  destruct (get_download_link N (download_page final)) as [link|e].
  2:{ exists []. cbn. rewrite app_nil_r. split; [reflexivity | discriminate]. }
  exists [link].
  pose proof (retrieve_trace N link (step_name final file_name) w) as Ht.
  pose proof (retrieve_ok_name N link (step_name final file_name) w) as Hn.
  destruct (retrieve N link (step_name final file_name) w) as [[[]|e] w2].
  - split; [exact Ht|]. intros n w' H. injection H as <- <-.
    split; [reflexivity | exact (Hn w2 eq_refl)].
  - split; [exact Ht | discriminate].
Qed.

(** With a destination name in hand, the loop never changes it. *)
Lemma download_loop_fixed_name (N : net) (finals : list info_t) (name : string) :
  name <> EmptyString ->
  forall w, exists ls,
    w_trace (snd (download_loop N finals name w))
      = w_trace w ++ retrieve_events name ls.
Proof.
  intros Hname. induction finals as [|final finals IH]; intros w.
  - exists []. cbn. rewrite app_nil_r. reflexivity.
  - rewrite download_loop_cons.
    destruct (download_step_outcome N final name w) as (ls & Ht & Hok).
    rewrite (step_name_given final name Hname) in Ht, Hok.
    destruct (download_step N final name w) as [[n|e] w1].
    + destruct (Hok n w1 eq_refl) as [-> _].
      destruct (IH w1) as (ls' & Ht').
      exists (ls ++ ls'). rewrite Ht'. cbn [snd] in Ht. rewrite Ht.
      unfold retrieve_events. rewrite map_app, app_assoc. reflexivity.
    + exists ls. exact Ht.
Qed.

Lemma download_step_success (N : net) (final : info_t) (file_name : string)
    (w : world) (lb : string * string) :
  resolves N final lb ->
  step_name final file_name <> EmptyString ->
  step_name final file_name ∉ w_dirs w ->
  exists w', download_step N final file_name w = (Ok (step_name final file_name), w')
    /\ w_trace w' = w_trace w ++ [EvRetrieve (fst lb) (step_name final file_name)]
    /\ w_dirs w' = w_dirs w
    /\ w_files w' = <[step_name final file_name := snd lb]> (w_files w).
Proof.
  intros [Hl Hb] Hname Hdir. rewrite download_step_run, Hl.
  destruct (retrieve_ok N (fst lb) (step_name final file_name) (snd lb) w
              Hb Hname Hdir) as (w' & Hr & Hf & Hd & Ht).
  rewrite Hr. exists w'. repeat split; assumption.
Qed.

Lemma download_loop_success (N : net) (name : string) (finals : list info_t)
    (lbs : list (string * string)) :
  name <> EmptyString ->
  Forall2 (resolves N) finals lbs ->
  forall w, name ∉ w_dirs w ->
    exists w', download_loop N finals name w = (Ok tt, w')
      /\ w_trace w' = w_trace w ++ retrieve_events name (map fst lbs)
      /\ w_files w' = fold_left (fun m lb => <[name := snd lb]> m) lbs (w_files w).
Proof.
  intros Hname. induction 1 as [|final lb finals lbs Hres _ IH]; intros w Hdir.
  - exists w. cbn. rewrite app_nil_r. repeat split.
  - rewrite download_loop_cons.
    pose proof (step_name_given final name Hname) as Hn.
    destruct (download_step_success N final name w lb Hres) as (w1 & Hs & Ht & Hd & Hf).
    { rewrite Hn. exact Hname. }
    { rewrite Hn. exact Hdir. }
    rewrite Hn in Hs, Ht, Hf. rewrite Hs.
    destruct (IH w1) as (w' & Hl & Ht' & Hf'); [rewrite Hd; exact Hdir|].
    exists w'. split; [exact Hl|]. split.
    + rewrite Ht', Ht. cbn. rewrite <- app_assoc. reflexivity.
    + rewrite Hf', Hf. reflexivity.
Qed.

Lemma fold_insert_last (name : string) (lbs : list (string * string))
    (d : string * string) (m : gmap string string) :
  lbs <> [] ->
  fold_left (fun m lb => <[name := snd lb]> m) lbs m
    = <[name := snd (List.last lbs d)]> m.
Proof.
  revert m. induction lbs as [|x lbs IH]; intros m Hne; [contradiction|].
  destruct lbs as [|y lbs]; [reflexivity|].
  cbn [fold_left]. cbn [fold_left] in IH.
  rewrite (IH (<[name := snd x]> m)) by discriminate.
  rewrite insert_insert_eq. reflexivity.
Qed.

(** C10. When download starts without a destination name on the selected
    records r1 :: rest, every call of retrieve made by the loop, for r1
    and for every later record, carries the name computed from r1, its
    title followed by its lower-cased type.  When moreover every record
    resolves and that name can be opened, the loop completes, calls
    retrieve once per record in order, always under that name, and leaves
    in that one file the body of the last record: each later download has
    overwritten the earlier ones, and no other file was written. *)
Theorem later_downloads_reuse_first_name :
  forall (N : net) (r1 : info_t) (rest : list info_t) (w : world),
    let name1 := title r1 +:+ str_lower (type r1) in
    (exists ls,
        w_trace (snd (download_loop N (r1 :: rest) "" w))
          = w_trace w ++ retrieve_events name1 ls)
    /\ (forall (lb1 : string * string) (lbs : list (string * string)),
          Forall2 (resolves N) (r1 :: rest) (lb1 :: lbs) ->
          name1 <> EmptyString -> name1 ∉ w_dirs w ->
          exists w',
            download_loop N (r1 :: rest) "" w = (Ok tt, w')
            /\ w_trace w' = w_trace w ++ retrieve_events name1 (map fst (lb1 :: lbs))
            /\ w_files w' = <[name1 := snd (List.last lbs lb1)]> (w_files w)).
Proof.
  intros N r1 rest w name1.
  assert (Hn : step_name r1 "" = name1) by reflexivity.
  split.
  - rewrite download_loop_cons.
    destruct (download_step_outcome N r1 "" w) as (ls & Ht & Hok).
    rewrite Hn in Ht, Hok.
    destruct (download_step N r1 "" w) as [[n|e] w1].
    + destruct (Hok n w1 eq_refl) as [-> Hne].
      destruct (download_loop_fixed_name N rest name1 Hne w1) as (ls' & Ht').
      exists (ls ++ ls'). rewrite Ht'. cbn [snd] in Ht. rewrite Ht.
      unfold retrieve_events. rewrite map_app, app_assoc. reflexivity.
    + exists ls. exact Ht.
  - intros lb1 lbs Hall Hne Hdir.
    inversion Hall as [|? ? ? ? Hres Hrest]; subst.
    rewrite download_loop_cons.
    destruct (download_step_success N r1 "" w lb1 Hres) as (w1 & Hs & Ht & Hd & Hf).
    { rewrite Hn. exact Hne. }
    { rewrite Hn. exact Hdir. }
    rewrite Hn in Hs, Ht, Hf. rewrite Hs.
    destruct (download_loop_success N name1 rest lbs Hne Hrest w1)
      as (w' & Hl & Ht' & Hf'); [rewrite Hd; exact Hdir|].
    exists w'. split; [exact Hl|]. split.
    + rewrite Ht', Ht. cbn. rewrite <- app_assoc. reflexivity.
    + rewrite Hf', Hf.
      change (fold_left (fun m lb => <[name1 := snd lb]> m) (lb1 :: lbs) (w_files w)
              = <[name1 := snd (List.last lbs lb1)]> (w_files w)).
      rewrite (fold_insert_last name1 (lb1 :: lbs) lb1) by discriminate.
      destruct lbs; reflexivity.
Qed.

Lemma later_downloads_reuse_first_name_witness :
  exists w',
    download_loop echo_net two_finals "" empty_world = (Ok tt, w')
    /\ w_trace w' = [EvRetrieve "http://93.174.95.29/p1" "Example Bookpdf";
                     EvRetrieve "http://93.174.95.29/p2" "Example Bookpdf"]
    /\ w_files w' = <["Example Bookpdf" := "body of http://93.174.95.29/p2"]> ∅.
Proof.
  apply (proj2 (later_downloads_reuse_first_name echo_net
                  (hd (sample_info "" 0) two_finals) (tl two_finals) empty_world)
           ("http://93.174.95.29/p1", "body of http://93.174.95.29/p1")
           [("http://93.174.95.29/p2", "body of http://93.174.95.29/p2")]).
  - repeat constructor.
  - discriminate.
  - apply not_elem_of_empty.
Defined.

(** * Further properties of the package *)

(** ** Strings *)

Lemma contains_char_app (c : ascii) (x y : string) :
  contains_char c (x +:+ y) = contains_char c x || contains_char c y.
Proof.
  induction x as [|d x IH]; [reflexivity|].
  change (contains_char c (String d (x +:+ y))
          = contains_char c (String d x) || contains_char c y).
  cbn [contains_char]. destruct (Ascii.eqb c d); [reflexivity | exact IH].
Qed.

Lemma str_split_cons (sep : ascii) (s : string) :
  exists h t, str_split sep s = h :: t.
Proof.
  destruct s as [|c s]; cbn [str_split]; [eauto|].
  destruct (Ascii.eqb c sep); [eauto|].
  destruct (str_split sep s); eauto.
Qed.

Lemma str_split_no_sep (sep : ascii) (s : string) :
  Forall (fun x => contains_char sep x = false) (str_split sep s).
Proof.
  induction s as [|c s IH]; cbn [str_split].
  - constructor; [reflexivity | constructor].
  - destruct (Ascii.eqb c sep) eqn:Hc.
    + constructor; [reflexivity | exact IH].
    + destruct (str_split sep s) as [|h t].
      * constructor; [|constructor]. cbn [contains_char].
        rewrite Ascii.eqb_sym, Hc. reflexivity.
      * inversion IH; subst. constructor; [|assumption].
        cbn [contains_char]. rewrite Ascii.eqb_sym, Hc. assumption.
Qed.

Lemma str_split_absent (sep : ascii) (s : string) :
  contains_char sep s = false -> str_split sep s = [s].
Proof.
  induction s as [|c s IH]; [reflexivity|].
  cbn [contains_char str_split]. rewrite (Ascii.eqb_sym c sep).
  destruct (Ascii.eqb sep c); [discriminate|].
  intros H. rewrite (IH H). reflexivity.
Qed.

Lemma str_split_present (sep : ascii) (s : string) :
  contains_char sep s = true ->
  exists h1 h2 t, str_split sep s = h1 :: h2 :: t.
Proof.
  induction s as [|c s IH]; [discriminate|].
  cbn [contains_char str_split]. rewrite (Ascii.eqb_sym c sep).
  destruct (Ascii.eqb sep c).
  - intros _. destruct (str_split_cons sep s) as (h & t & ->). eauto.
  - intros H. destruct (IH H) as (h1 & h2 & t & ->). eauto.
Qed.

Lemma str_join_split (sep : ascii) (s : string) :
  str_join (String sep EmptyString) (str_split sep s) = s.
Proof.
  induction s as [|c s IH]; [reflexivity|].
  cbn [str_split]. destruct (Ascii.eqb c sep) eqn:Hc.
  - apply Ascii.eqb_eq in Hc. subst c.
    destruct (str_split_cons sep s) as (h & t & Hs).
    rewrite Hs in IH |- *.
    change (String sep (str_join (String sep EmptyString) (h :: t)) = String sep s).
    rewrite IH. reflexivity.
  - destruct (str_split sep s) as [|h t].
    + cbn in IH. subst s. reflexivity.
    + destruct t as [|h' t].
      * cbn in IH. subst s. reflexivity.
      * change (String c (str_join (String sep EmptyString) (h :: h' :: t)) = String c s).
        rewrite IH. reflexivity.
Qed.

Lemma str_join_removelast (sep : string) (l : list string) (x y : string) :
  str_join sep (removelast (x :: y :: l)) +:+ sep +:+ List.last (x :: y :: l) EmptyString
  = str_join sep (x :: y :: l).
Proof.
  revert x y. induction l as [|z l IH]; intros x y; [reflexivity|].
  change (removelast (x :: y :: z :: l)) with (x :: removelast (y :: z :: l)).
  change (List.last (x :: y :: z :: l) EmptyString)
    with (List.last (y :: z :: l) EmptyString).
  assert (Hr : exists a r, removelast (y :: z :: l) = a :: r).
  { destruct l; cbn; eauto. }
  destruct Hr as (a & r & Hr). rewrite Hr.
  change (str_join sep (x :: a :: r)) with (x +:+ sep +:+ str_join sep (a :: r)).
  rewrite <- Hr. rewrite !str_app_assoc, IH. reflexivity.
Qed.

Lemma last_char_some (s : string) :
  s <> EmptyString -> exists c, last_char s = Ok c.
Proof.
  induction s as [|c s IH]; [contradiction|]. intros _.
  destruct s as [|d s]; [cbn; eauto|].
  destruct IH as [e He]; [discriminate|]. exists e. exact He.
Qed.

Lemma remove_slashes (s : string) :
  contains_char slash (str_replace s "/" "") = false.
Proof.
  unfold str_replace. induction s as [|c s IH]; [reflexivity|].
  cbn [replace_from String.prefix String.length Nat.sub].
  destruct (ascii_dec "/" c) as [<-|Hne].
  - destruct s; exact IH.
  - cbn [contains_char]. fold slash.
    destruct (Ascii.eqb slash c) eqn:Hc; [|exact IH].
    apply Ascii.eqb_eq in Hc. contradiction.
Qed.

(** ** Reading the text file *)

Lemma py_lines_from_concat (s cur : string) :
  fold_right String.append EmptyString (py_lines_from cur s) = cur +:+ s.
Proof.
  revert cur. induction s as [|c s IH]; intros cur.
  - cbn [py_lines_from]. destruct cur; [reflexivity|].
    cbn [fold_right]. rewrite !str_app_nil. reflexivity.
  - cbn [py_lines_from]. destruct (Ascii.eqb c newline).
    + cbn [fold_right]. rewrite IH, str_app_assoc. reflexivity.
    + rewrite IH, str_app_assoc. reflexivity.
Qed.

Lemma app_char_nonempty (cur : string) (c : ascii) :
  cur +:+ String c EmptyString <> EmptyString.
Proof. destruct cur; discriminate. Qed.

Lemma py_lines_from_nonempty (s cur : string) :
  Forall (fun l => l <> EmptyString) (py_lines_from cur s).
Proof.
  revert cur. induction s as [|c s IH]; intros cur.
  - cbn [py_lines_from]. destruct cur; constructor; [discriminate | constructor].
  - cbn [py_lines_from]. destruct (Ascii.eqb c newline).
    + constructor; [apply app_char_nonempty | apply IH].
    + apply IH.
Qed.

(** ** The text parser on arbitrary listings *)

Lemma txt_loop_cons (raw : string) (rest : list string) (i : nat)
    (files : list string) (path : string) (catalogue : catalogue_t) :
  raw <> EmptyString ->
  txt_loop (raw :: rest) i files path catalogue =
    if Nat.eqb i 0 then
      if contains_char dot (strip_nl raw)
      then txt_loop rest (i + 1) (files ++ [strip_nl raw]) "./" catalogue
      else txt_loop rest (i + 1) files (strip_nl raw) catalogue
    else if contains_char dot (strip_nl raw)
    then txt_loop rest i
           (files ++ [str_replace (str_replace (strip_nl raw) path "") "/" ""])
           path catalogue
    else txt_loop rest i [] (strip_nl raw) (catalogue ++ [(path, [], files)]).
Proof.
  intros Hraw. destruct (last_char_some raw Hraw) as [c Hc].
  cbn [txt_loop]. unfold strip_nl. rewrite Hc. reflexivity.
Qed.

(** The loop once the first line has been read. *)
Lemma txt_loop_later (lines : list string) :
  Forall (fun l => l <> EmptyString) lines ->
  forall (i : nat) (files : list string) (path : string) (catalogue : catalogue_t),
    Nat.eqb i 0 = false ->
    exists res,
      txt_loop lines i files path catalogue = Ok res
      /\ map entry_path res
         = map entry_path catalogue
             ++ path :: List.filter is_dir_line (map strip_nl lines)
      /\ (Forall (fun e => entry_dirs e = []) catalogue ->
          Forall (fun e => entry_dirs e = []) res)
      /\ length (concat (map entry_files res))
         = (length (concat (map entry_files catalogue)) + length files
            + length (List.filter is_file_line (map strip_nl lines)))%nat
      /\ (Forall slash_free (concat (map entry_files catalogue)) ->
          Forall slash_free files ->
          Forall slash_free (concat (map entry_files res))).
Proof.
  induction 1 as [|raw rest Hraw _ IH]; intros i files path catalogue Hi.
  - exists (catalogue ++ [(path, [], files)]). cbn [txt_loop map List.filter].
    split; [reflexivity|]. split; [rewrite map_app; reflexivity|].
    split.
    { intros Hd. apply Forall_app. split; [exact Hd|]. repeat constructor. }
    split.
    { rewrite map_app, concat_app, length_app. cbn. rewrite app_nil_r. lia. }
    intros Hc Hf. rewrite map_app, concat_app. apply Forall_app.
    split; [exact Hc|]. cbn. rewrite app_nil_r. exact Hf.
  - rewrite (txt_loop_cons raw rest i files path catalogue Hraw), Hi.
    cbn [map List.filter]. unfold is_dir_line at 1, is_file_line at 1.
    destruct (contains_char dot (strip_nl raw)) eqn:Hdot; cbn [negb].
    + destruct (IH i (files ++ [str_replace (str_replace (strip_nl raw) path "") "/" ""])
                  path catalogue Hi) as (res & Hres & Hp & Hd & Hn & Hs).
      exists res. split; [exact Hres|]. split; [exact Hp|]. split; [exact Hd|].
      split.
      { rewrite Hn, length_app. cbn [length]. lia. }
      intros Hc Hf. apply Hs; [exact Hc|]. apply Forall_app. split; [exact Hf|].
      constructor; [apply remove_slashes | constructor].
    + destruct (IH i [] (strip_nl raw) (catalogue ++ [(path, [], files)]) Hi)
        as (res & Hres & Hp & Hd & Hn & Hs).
      exists res. split; [exact Hres|]. split.
      { rewrite Hp, map_app. cbn [map entry_path fst]. rewrite <- app_assoc.
        reflexivity. }
      split.
      { intros Hc. apply Hd. apply Forall_app. split; [exact Hc|].
        repeat constructor. }
      split.
      { rewrite Hn, map_app, concat_app, length_app. cbn. rewrite app_nil_r. lia. }
      intros Hc Hf. apply Hs; [|constructor].
      rewrite map_app, concat_app. apply Forall_app. split; [exact Hc|].
      cbn. rewrite app_nil_r. exact Hf.
Qed.

(** X4. On a listing of non-empty lines the parser never raises; the
    paths of the entries it returns are the root (the first line, or "./"
    when the first line names a file) followed by the directory lines in
    the order of the listing; every entry has an empty list of
    sub-directories; and the entries hold together as many files as the
    listing has file lines. *)
Theorem parse_lines_shape (raw : string) (rest : list string) :
  Forall (fun l => l <> EmptyString) (raw :: rest) ->
  exists catalogue,
    parse_lines (raw :: rest) = Ok catalogue
    /\ map entry_path catalogue
       = (if is_file_line (strip_nl raw) then "./" else strip_nl raw)
           :: List.filter is_dir_line (map strip_nl rest)
    /\ Forall (fun e => entry_dirs e = []) catalogue
    /\ length (concat (map entry_files catalogue))
       = length (List.filter is_file_line (map strip_nl (raw :: rest))).
Proof.
  intros Hall. inversion Hall as [|? ? Hraw Hrest]; subst.
  unfold parse_lines. rewrite (txt_loop_cons raw rest 0 [] "" [] Hraw).
  cbn [Nat.eqb map List.filter]. unfold is_file_line at 1 2.
  destruct (contains_char dot (strip_nl raw)) eqn:Hdot.
  - destruct (txt_loop_later rest Hrest (0 + 1) ([] ++ [strip_nl raw]) "./" [] eq_refl)
      as (res & Hres & Hp & Hd & Hn & _).
    exists res. split; [exact Hres|]. split; [exact Hp|].
    split; [apply Hd; constructor|]. rewrite Hn. cbn. lia.
  - destruct (txt_loop_later rest Hrest (0 + 1) [] (strip_nl raw) [] eq_refl)
      as (res & Hres & Hp & Hd & Hn & _).
    exists res. split; [exact Hres|]. split; [exact Hp|].
    split; [apply Hd; constructor|]. rewrite Hn. reflexivity.
Qed.

Lemma parse_lines_shape_witness :
  exists catalogue,
    parse_lines listing_lines = Ok catalogue
    /\ map entry_path catalogue = ["books"; "books/sub"]
    /\ Forall (fun e => entry_dirs e = []) catalogue
    /\ length (concat (map entry_files catalogue)) = 2%nat.
Proof.
  apply (parse_lines_shape "books" ["books/a.pdf"; "books/sub"; "books/sub/b.pdf"]).
  repeat constructor; discriminate.
Defined.

(** X5. When the first line of the listing names a directory, no file
    name stored in the catalogue contains a slash. *)
Theorem parsed_files_have_no_slash (raw : string) (rest : list string)
    (catalogue : catalogue_t) :
  Forall (fun l => l <> EmptyString) (raw :: rest) ->
  is_file_line (strip_nl raw) = false ->
  parse_lines (raw :: rest) = Ok catalogue ->
  Forall slash_free (concat (map entry_files catalogue)).
Proof.
  intros Hall Hdir Hparse. inversion Hall as [|? ? Hraw Hrest]; subst.
  unfold parse_lines in Hparse.
  rewrite (txt_loop_cons raw rest 0 [] "" [] Hraw) in Hparse.
  cbn [Nat.eqb] in Hparse. unfold is_file_line in Hdir. rewrite Hdir in Hparse.
  destruct (txt_loop_later rest Hrest (0 + 1) [] (strip_nl raw) [] eq_refl)
    as (res & Hres & _ & _ & _ & Hs).
  rewrite Hres in Hparse. injection Hparse as <-.
  apply Hs; constructor.
Qed.

Lemma parsed_files_have_no_slash_witness :
  Forall slash_free
    (concat (map entry_files
               [("books", [], ["a.pdf"]); ("books/sub", [], ["b.pdf"])])).
Proof.
  apply (parsed_files_have_no_slash "books"
           ["books/a.pdf"; "books/sub"; "books/sub/b.pdf"]).
  - repeat constructor; discriminate.
  - reflexivity.
  - vm_compute. reflexivity.
Defined.

Lemma parse_lines_total (lines : list string) :
  Forall (fun l => l <> EmptyString) lines ->
  exists catalogue, parse_lines lines = Ok catalogue /\ catalogue <> [].
Proof.
  intros Hall. destruct lines as [|raw rest].
  - exists [(EmptyString, [], [])]. split; [reflexivity | discriminate].
  - inversion Hall as [|? ? Hraw Hrest]; subst.
    unfold parse_lines. rewrite (txt_loop_cons raw rest 0 [] "" [] Hraw).
    cbn [Nat.eqb].
    destruct (contains_char dot (strip_nl raw)).
    + destruct (txt_loop_later rest Hrest (0 + 1) ([] ++ [strip_nl raw]) "./" [] eq_refl)
        as (res & Hres & Hp & _).
      exists res. split; [exact Hres|]. intros ->. discriminate.
    + destruct (txt_loop_later rest Hrest (0 + 1) [] (strip_nl raw) [] eq_refl)
        as (res & Hres & Hp & _).
      exists res. split; [exact Hres|]. intros ->. discriminate.
Qed.

(** ** Building a catalogue from a text file *)

(** X1. When the catalogue file to write already exists,
    create_catalogue_txt raises ValueError and leaves the world as it
    was, whether or not the text file exists. *)
Theorem create_catalogue_txt_keeps_existing_file (P : codec)
    (txt_file file_name : string) (w : world) :
  is_Some (w_files w !! file_name) ->
  create_catalogue_txt P txt_file file_name w
    = (Raise (ValueError "There already exists a file with same name."), w).
Proof.
  intros H. unfold create_catalogue_txt, bind, isfile.
  rewrite bool_decide_eq_true_2 by exact H. reflexivity.
Qed.

Lemma create_catalogue_txt_keeps_existing_file_witness :
  create_catalogue_txt ref_codec "listing.txt" "books.cat" replay_world
    = (Raise (ValueError "There already exists a file with same name."), replay_world).
Proof.
  apply (create_catalogue_txt_keeps_existing_file ref_codec "listing.txt"
           "books.cat" replay_world).
  vm_compute. eauto.
Defined.

(** X2. When the catalogue file does not exist yet and the text file is
    missing, create_catalogue_txt raises ValueError and leaves the world
    as it was. *)
Theorem create_catalogue_txt_needs_text_file (P : codec)
    (txt_file file_name : string) (w : world) :
  w_files w !! file_name = None ->
  w_files w !! txt_file = None ->
  create_catalogue_txt P txt_file file_name w
    = (Raise (ValueError "text file does not exist containing paths."), w).
Proof.
  intros Hf Ht. unfold create_catalogue_txt, bind, isfile.
  rewrite Hf.
  rewrite bool_decide_eq_false_2 by (intros [? ?]; discriminate).
  cbv beta iota. rewrite Ht.
  rewrite bool_decide_eq_false_2 by (intros [? ?]; discriminate).
  reflexivity.
Qed.

Lemma create_catalogue_txt_needs_text_file_witness :
  create_catalogue_txt ref_codec "listing.txt" "books.cat" empty_world
    = (Raise (ValueError "text file does not exist containing paths."), empty_world).
Proof.
  apply (create_catalogue_txt_needs_text_file ref_codec "listing.txt"
           "books.cat" empty_world); reflexivity.
Defined.

(** X3. When the catalogue file does not exist, its name can be opened
    and the text file exists, create_catalogue_txt succeeds whatever the
    text is: the parser does not raise on the lines of a file, the
    catalogue it builds has at least one entry, and the only change to
    the world is the new catalogue file, which holds the pickled
    catalogue. *)
Theorem create_catalogue_txt_stores_parse (P : codec)
    (txt_file file_name content : string) (w : world) :
  w_files w !! file_name = None ->
  w_files w !! txt_file = Some content ->
  file_name <> EmptyString -> file_name ∉ w_dirs w ->
  exists catalogue w',
    parse_lines (py_lines content) = Ok catalogue
    /\ catalogue <> []
    /\ create_catalogue_txt P txt_file file_name w = (Ok tt, w')
    /\ w_files w' = <[file_name := pickle_dumps P catalogue]> (w_files w)
    /\ w_dirs w' = w_dirs w /\ w_trace w' = w_trace w.
Proof.
  intros Hf Ht Hname Hdir.
  destruct (parse_lines_total (py_lines content)
              (py_lines_from_nonempty (universal_newlines content) EmptyString))
    as (catalogue & Hparse & Hne).
  destruct (write_file_ok file_name (pickle_dumps P catalogue) w Hname Hdir)
    as (w' & Hw & Hfiles & Hdirs & Htrace).
  exists catalogue, w'. split; [exact Hparse|]. split; [exact Hne|].
  split; [|repeat split; assumption].
  unfold create_catalogue_txt, bind, isfile, read_file, lift, dump_file.
  rewrite Hf.
  rewrite bool_decide_eq_false_2 by (intros [? ?]; discriminate).
  cbv beta iota. rewrite Ht.
  rewrite bool_decide_eq_true_2 by eauto.
  cbv beta iota delta [negb]. rewrite Ht. cbv beta iota.
  rewrite Hparse. exact Hw.
Qed.

Lemma create_catalogue_txt_stores_parse_witness :
  exists catalogue w',
    parse_lines (py_lines listing_text) = Ok catalogue
    /\ catalogue <> []
    /\ create_catalogue_txt ref_codec "listing.txt" "books.cat" listing_world
       = (Ok tt, w')
    /\ w_files w'
       = <["books.cat" := pickle_dumps ref_codec catalogue]> (w_files listing_world)
    /\ w_dirs w' = w_dirs listing_world /\ w_trace w' = w_trace listing_world.
Proof.
  apply (create_catalogue_txt_stores_parse ref_codec "listing.txt" "books.cat"
           listing_text listing_world).
  - vm_compute. reflexivity.
  - vm_compute. reflexivity.
  - discriminate.
  - apply not_elem_of_empty.
Defined.

(** ** Replay: what happens before the first directory *)

(** X6. When the catalogue file does not exist, the replay raises
    ValueError and leaves the world as it was. *)
Theorem traverse_catalogue_missing_file {A} (P : codec) (file_name : string)
    (action_function : string -> M A) (w : world) :
  w_files w !! file_name = None ->
  traverse_catalogue P file_name action_function w
    = (Raise (ValueError "File given does not exist..."), w).
Proof.
  intros Hf. unfold traverse_catalogue, bind, isfile. rewrite Hf.
  rewrite bool_decide_eq_false_2 by (intros [? ?]; discriminate).
  reflexivity.
Qed.

Lemma traverse_catalogue_missing_file_witness :
  traverse_catalogue ref_codec "books.cat" creator empty_world
    = (Raise (ValueError "File given does not exist..."), empty_world).
Proof.
  apply (traverse_catalogue_missing_file ref_codec "books.cat" creator empty_world).
  reflexivity.
Defined.

(** X7. When the catalogue file holds a catalogue without entries, the
    replay raises IndexError at catalogue[0] and leaves the world as it
    was: there is no check for an empty catalogue. *)
Theorem traverse_catalogue_empty_catalogue {A} (P : codec) (file_name content : string)
    (action_function : string -> M A) (w : world) :
  w_files w !! file_name = Some content ->
  pickle_loads P content = Ok [] ->
  traverse_catalogue P file_name action_function w = (Raise IndexError, w).
Proof.
  intros Hf Hl.
  unfold traverse_catalogue, bind, isfile, load_file, bind, read_file, lift.
  rewrite Hf. rewrite bool_decide_eq_true_2 by eauto.
  cbv beta iota delta [negb]. rewrite Hf. cbv beta iota. rewrite Hl.
  reflexivity.
Qed.

Lemma traverse_catalogue_empty_catalogue_witness :
  traverse_catalogue ref_codec "none.cat" creator empty_catalogue_world
    = (Raise IndexError, empty_catalogue_world).
Proof.
  apply (traverse_catalogue_empty_catalogue ref_codec "none.cat" (ref_dumps [])
           creator empty_catalogue_world).
  - vm_compute. reflexivity.
  - vm_compute. reflexivity.
Defined.

Lemma last_Forall {A} (Q : A -> Prop) (l : list A) (d : A) :
  Forall Q l -> l <> [] -> Q (List.last l d).
Proof.
  induction 1 as [|x l Hx Hl IH]; [contradiction|]. intros _.
  destruct l as [|y l]; [exact Hx|]. apply IH. discriminate.
Qed.

(** X8. The base directory computed by the replay is the part of the
    first path after its last slash and contains no slash.  A first path
    without a slash is its own base directory and nothing is stripped;
    otherwise the first path is the stripped prefix, a slash, and the base
    directory. *)
Theorem base_and_replace_splits (first_path : string) :
  slash_free (fst (base_and_replace first_path))
  /\ (contains_char slash first_path = false ->
      base_and_replace first_path = (first_path, EmptyString))
  /\ (contains_char slash first_path = true ->
      first_path = snd (base_and_replace first_path) +:+ "/"
                     +:+ fst (base_and_replace first_path)).
Proof.
  split.
  { rewrite base_dir_last_segment.
    apply (last_Forall _ _ _ (str_split_no_sep slash first_path)).
    destruct (str_split_cons slash first_path) as (h & t & ->). discriminate. }
  split.
  - intros H. unfold base_and_replace.
    rewrite (str_split_absent slash first_path H). reflexivity.
  - intros H. unfold base_and_replace.
    destruct (str_split_present slash first_path H) as (h1 & h2 & t & Hs).
    pose proof (str_join_split slash first_path) as Hj. rewrite Hs in Hj |- *.
    cbn [length Nat.leb fst snd].
    rewrite (str_join_removelast "/" t h1 h2). symmetry. exact Hj.
Qed.

(** ** Replay: the loop over the entries *)

Lemma filter_all {A} (f : A -> bool) (l : list A) :
  Forall (fun x => f x = true) l -> List.filter f l = l.
Proof.
  induction 1 as [|x l Hx _ IH]; [reflexivity|].
  cbn [List.filter]. rewrite Hx, IH. reflexivity.
Qed.

Lemma plain_nonempty (p : string) : plain p -> p <> EmptyString.
Proof.
  intros H ->. unfold plain in H. cbn in H.
  apply Forall_cons in H as [[H _] _]. contradiction.
Qed.

Lemma plain_components (p : string) :
  plain p -> path_components p = str_split slash p.
Proof.
  intros H. unfold path_components. apply filter_all.
  eapply Forall_impl; [exact H|]. intros c [Hc _]. cbn beta.
  destruct (String.eqb c "") eqn:He; [|reflexivity].
  apply String.eqb_eq in He. contradiction.
Qed.

Lemma plain_relative (p : string) : plain p -> startswith "/" p = false.
Proof.
  intros H. destruct p as [|c p]; [reflexivity|].
  unfold startswith. cbn [String.prefix].
  destruct (ascii_dec "/" c) as [<-|Hne]; [|reflexivity].
  unfold plain in H. cbn [str_split] in H.
  change (Ascii.eqb "/" slash) with true in H. cbn iota in H.
  apply Forall_cons in H as [[H _] _]. contradiction.
Qed.

Lemma walk_plain (dirs : gset string) (files : gmap string string)
    (comps stack : list string) :
  Forall (fun c => c <> EmptyString /\ c <> "." /\ c <> "..") comps ->
  Forall (fun q => q ∈ dirs) (prefix_keys stack comps) ->
  walk_dirs dirs files false stack comps = Ok (stack ++ comps).
Proof.
  revert stack. induction comps as [|c comps IH]; intros stack Hc Hk.
  - rewrite app_nil_r. reflexivity.
  - apply Forall_cons in Hc as [(_ & Hdot & Hdd) Hc].
    cbn [prefix_keys] in Hk. apply Forall_cons in Hk as [Hin Hk].
    cbn [walk_dirs].
    destruct (String.eqb c ".") eqn:H1; [apply String.eqb_eq in H1; contradiction|].
    destruct (String.eqb c "..") eqn:H2; [apply String.eqb_eq in H2; contradiction|].
    rewrite bool_decide_eq_true_2 by exact Hin.
    rewrite (IH (stack ++ [c]) Hc Hk), <- app_assoc. reflexivity.
Qed.

Lemma Forall_removelast {A} (Q : A -> Prop) (l : list A) :
  Forall Q l -> Forall Q (removelast l).
Proof.
  induction 1 as [|x l Hx Hl IH]; [constructor|].
  destruct l as [|y l]; [constructor|].
  change (removelast (x :: y :: l)) with (x :: removelast (y :: l)).
  constructor; assumption.
Qed.

Lemma mkdir_ok (p : string) (w : world) :
  plain p -> Forall (fun q => q ∈ w_dirs w) (ancestors p) ->
  p ∉ w_dirs w -> w_files w !! p = None ->
  exists w', mkdir p w = (Ok tt, w')
    /\ w_files w' = w_files w /\ w_dirs w' = {[p]} ∪ w_dirs w
    /\ w_trace w' = w_trace w ++ [EvMkdir p].
Proof.
  intros Hplain Hanc Hd Hf. unfold mkdir, bind, log.
  pose proof (plain_nonempty p Hplain) as Hp.
  destruct (String.eqb p "") eqn:He; [apply String.eqb_eq in He; contradiction|].
  cbn [w_dirs w_files].
  rewrite (plain_relative p Hplain), (plain_components p Hplain).
  destruct (str_split_cons slash p) as (h & t & Hs).
  assert (Hne : str_split slash p <> []) by (rewrite Hs; discriminate).
  pose proof (last_Forall _ _ "." Hplain Hne) as (_ & Hdot & Hdd).
  rewrite (walk_plain (w_dirs w) (w_files w) (removelast (str_split slash p)) []
             (Forall_removelast _ _ Hplain) Hanc).
  cbn [app].
  destruct (String.eqb (List.last (str_split slash p) ".") ".") eqn:H1;
    [apply String.eqb_eq in H1; contradiction|].
  destruct (String.eqb (List.last (str_split slash p) ".") "..") eqn:H2;
    [apply String.eqb_eq in H2; contradiction|].
  cbn [orb].
  rewrite <- (app_removelast_last "." Hne).
  assert (Hkey : path_key false (str_split slash p) = p).
  { unfold path_key. change ("" +:+ str_join "/" (str_split slash p))
      with (str_join "/" (str_split slash p)). apply (str_join_split slash p). }
  rewrite Hkey.
  rewrite bool_decide_eq_false_2 by exact Hd.
  rewrite bool_decide_eq_false_2 by (rewrite Hf; intros [? ?]; discriminate).
  eexists. split; [reflexivity|]. repeat split.
Qed.

Lemma path_join_nonempty (p f : string) :
  p <> EmptyString -> path_join p f <> EmptyString.
Proof.
  intros Hp. unfold path_join, startswith.
  destruct (String.prefix "/" f) eqn:Hpre.
  - destruct f; [discriminate Hpre | discriminate].
  - destruct (last_char_some p Hp) as [c ->].
    destruct p as [|d p]; [contradiction|].
    destruct (Ascii.eqb c slash); discriminate.
Qed.

Lemma for_files_quiet {A} (action_function : string -> M A) (p : string) :
  quiet action_function -> p <> EmptyString ->
  forall (files : list string) (w : world),
    exists w', for_files action_function p files w = (Ok tt, w')
      /\ w_files w' = w_files w /\ w_dirs w' = w_dirs w
      /\ w_trace w' = w_trace w ++ map (fun f => EvAction (path_join p f)) files.
Proof.
  intros Hq Hp. induction files as [|f files IH]; intros w.
  - exists w. cbn. rewrite app_nil_r. repeat split.
  - cbn [for_files]. unfold bind at 1 2. cbn [log].
    match goal with |- context [action_function ?f ?w1] =>
      destruct (Hq f w1 (path_join_nonempty p _ Hp)) as [x Hx]; rewrite Hx;
      destruct (IH w1) as (w' & Hr & Hf & Hd & Ht) end.
    exists w'. split; [exact Hr|]. cbn [w_files w_dirs w_trace] in Hf, Hd, Ht.
    split; [exact Hf|]. split; [exact Hd|].
    rewrite Ht. cbn [map]. rewrite <- app_assoc. reflexivity.
Qed.

Lemma for_entries_cons {A} (action_function : string -> M A) (replace_path : string)
    (e : entry) (catalogue : catalogue_t) (w : world) :
  for_entries action_function replace_path (e :: catalogue) w =
    match norm_path replace_path (entry_path e) with
    | Raise x => (Raise x, w)
    | Ok p =>
        match mkdir p w with
        | (Raise x, w1) => (Raise x, w1)
        | (Ok _, w1) =>
            match for_files action_function p (entry_files e) w1 with
            | (Raise x, w2) => (Raise x, w2)
            | (Ok _, w2) => for_entries action_function replace_path catalogue w2
            end
        end
    end.
Proof.
  destruct e as [[path_ dirs] files]. cbn [for_entries entry_path entry_files fst snd].
  unfold norm_path, bind at 1, lift.
  destruct (first_char (str_replace path_ replace_path "")) as [c|x]; reflexivity.
Qed.

Lemma for_entries_quiet {A} (action_function : string -> M A) (replace_path : string) :
  quiet action_function ->
  forall (catalogue : catalogue_t) (ps : list string),
    Forall2 (fun e p => norm_path replace_path (entry_path e) = Ok p) catalogue ps ->
    forall w,
      ready (w_dirs w) ps ->
      Forall (fun p => w_files w !! p = None) ps ->
      exists w', for_entries action_function replace_path catalogue w = (Ok tt, w')
        /\ w_files w' = w_files w
        /\ w_dirs w' = list_to_set ps ∪ w_dirs w
        /\ w_trace w' = w_trace w ++ replay_events ps catalogue.
Proof.
  intros Hq. induction 1 as [|e p catalogue ps Hnorm _ IH]; intros w Hready Hfresh.
  - exists w. cbn. rewrite app_nil_r. repeat split.
    symmetry. apply (left_id_L ∅ (∪)).
  - cbn [ready] in Hready. destruct Hready as (Hplain & Hanc & Hd & Hready).
    apply Forall_cons in Hfresh as [Hf Hfresh].
    rewrite for_entries_cons, Hnorm.
    destruct (mkdir_ok p w Hplain Hanc Hd Hf) as (w1 & Hm & Hf1 & Hd1 & Ht1).
    rewrite Hm.
    destruct (for_files_quiet action_function p Hq (plain_nonempty p Hplain)
                (entry_files e) w1) as (w2 & Hr & Hf2 & Hd2 & Ht2).
    rewrite Hr.
    destruct (IH w2) as (w' & Hrun & Hf' & Hd' & Ht').
    { rewrite Hd2, Hd1. exact Hready. }
    { rewrite Hf2, Hf1. exact Hfresh. }
    exists w'. split; [exact Hrun|]. split; [congruence|]. split.
    + rewrite Hd', Hd2, Hd1. cbn [list_to_set].
      rewrite (assoc_L (∪)), (comm_L (∪) (list_to_set ps) {[p]}). reflexivity.
    + rewrite Ht', Ht2, Ht1. cbn [replay_events]. unfold entry_events.
      rewrite <- !app_assoc. reflexivity.
Qed.

Lemma traverse_catalogue_run {A} (P : codec) (file_name content : string)
    (action_function : string -> M A) (w : world)
    (first : entry) (rest : catalogue_t) :
  w_files w !! file_name = Some content ->
  pickle_loads P content = Ok (first :: rest) ->
  fst (base_and_replace (entry_path first)) ∉ w_dirs w ->
  traverse_catalogue P file_name action_function w
    = for_entries action_function (snd (base_and_replace (entry_path first)))
        (first :: rest) w.
Proof.
  intros Hfile Hload Hdir.
  unfold traverse_catalogue, bind, isfile, load_file, bind, read_file, lift.
  rewrite Hfile. rewrite bool_decide_eq_true_2 by eauto.
  cbv beta iota delta [negb]. rewrite Hfile. cbv beta iota.
  rewrite Hload, py_index_first. cbv beta iota.
  destruct (base_and_replace (entry_path first)) as [base_dir replace_path].
  cbn [fst snd] in Hdir |- *. unfold isdir.
  rewrite bool_decide_eq_false_2 by exact Hdir. reflexivity.
Qed.

(** X9. Replay on a fresh target with an action that returns without
    changing the world: when the base directory does not exist and the
    directories of the entries can be made one after the other (each a
    plain path, new, with its ancestors present or made before it, and no
    file in its place), the replay completes; it makes one directory per
    entry in catalogue order and calls the action on every file of an
    entry, in order, right after that entry's directory is made;
    afterwards the directories are the old ones plus one per entry, and
    no file has changed. *)
Theorem replay_on_fresh_target {A} (P : codec) (file_name content : string)
    (action_function : string -> M A) (w : world)
    (first : entry) (rest : catalogue_t) (ps : list string) :
  w_files w !! file_name = Some content ->
  pickle_loads P content = Ok (first :: rest) ->
  fst (base_and_replace (entry_path first)) ∉ w_dirs w ->
  quiet action_function ->
  Forall2 (fun e p =>
             norm_path (snd (base_and_replace (entry_path first))) (entry_path e) = Ok p)
    (first :: rest) ps ->
  ready (w_dirs w) ps ->
  Forall (fun p => w_files w !! p = None) ps ->
  exists w',
    traverse_catalogue P file_name action_function w = (Ok tt, w')
    /\ w_files w' = w_files w
    /\ w_dirs w' = list_to_set ps ∪ w_dirs w
    /\ w_trace w' = w_trace w ++ replay_events ps (first :: rest).
Proof.
  intros Hfile Hload Hdir Hq Hnorm Hready Hfresh.
  rewrite (traverse_catalogue_run P file_name content action_function w first rest
             Hfile Hload Hdir).
  exact (for_entries_quiet action_function _ Hq (first :: rest) ps Hnorm w Hready Hfresh).
Qed.

Lemma sample_dirs_ready : ready ∅ ["books"; "books/empty"; "books/sub"].
Proof.
  cbn [ready]. unfold plain, ancestors.
  repeat split; try (repeat constructor; discriminate);
    try (apply (bool_decide_unpack _); vm_compute; exact I).
Qed.

Lemma replay_on_fresh_target_witness :
  exists w',
    traverse_catalogue ref_codec "books.cat" no_action fresh_world = (Ok tt, w')
    /\ w_files w' = w_files fresh_world
    /\ w_dirs w' = list_to_set ["books"; "books/empty"; "books/sub"] ∪ w_dirs fresh_world
    /\ w_trace w'
       = [EvMkdir "books"; EvAction "books/a.pdf"; EvMkdir "books/empty";
          EvMkdir "books/sub"; EvAction "books/sub/b.pdf";
          EvAction "books/sub/c.djvu"].
Proof.
  apply (replay_on_fresh_target ref_codec "books.cat" (ref_dumps sample_catalogue)
           no_action fresh_world ("home/books", [], ["a.pdf"])
           [("home/books/empty", [], []);
            ("home/books/sub", [], ["b.pdf"; "c.djvu"])]
           ["books"; "books/empty"; "books/sub"]).
  - vm_compute. reflexivity.
  - exact (ref_codec_round_trip sample_catalogue).
  - apply not_elem_of_empty.
  - intros f w _. exists tt. reflexivity.
  - repeat constructor.
  - exact sample_dirs_ready.
  - repeat constructor.
Defined.

(** ** Acquisition: the search and the selection *)

Lemma download_run (N : net) (book_name file_name : string) (auto : bool) (w : world) :
  book_name <> EmptyString \/ file_name <> EmptyString ->
  download N book_name file_name auto w =
    match get_results N (search_url (query_name book_name file_name)) with
    | Raise e => (Raise e, w)
    | Ok results =>
        match get_infos (tl results) with
        | Raise e => (Raise e, w)
        | Ok infos =>
            if (length infos <? 1)%nat then (Ok false, w)
            else
              match to_be_downloaded auto infos w with
              | (Raise e, w1) => (Raise e, w1)
              | (Ok finals, w1) =>
                  match download_loop N finals file_name w1 with
                  | (Raise e, w2) => (Raise e, w2)
                  | (Ok _, w2) => (Ok true, w2)
                  end
              end
        end
    end.
Proof.
  intros Hnames. unfold download, query_name, derived_name.
  assert (Hq : (if String.eqb book_name "" then
                  if negb (String.eqb file_name "") then
                    ret (hd EmptyString
                           (str_split dot
                              (List.last (str_split slash file_name) EmptyString)))
                  else raise (ValueError "neither book name is provided nor file name")
                else ret book_name) w
               = (Ok (if String.eqb book_name ""
                      then hd EmptyString
                             (str_split dot
                                (List.last (str_split slash file_name) EmptyString))
                      else book_name), w)).
  { destruct (String.eqb book_name "") eqn:Hb; [|reflexivity].
    destruct (String.eqb file_name "") eqn:Hf; [|reflexivity].
    apply String.eqb_eq in Hb, Hf. destruct Hnames; contradiction. }
  unfold bind at 1. rewrite Hq. unfold bind at 1, lift at 1.
  destruct (get_results N _) as [results|e]; [|reflexivity].
  unfold bind at 1, lift at 1.
  destruct (get_infos (tl results)) as [infos|e]; [|reflexivity].
  destruct (length infos <? 1)%nat; [reflexivity|].
  unfold bind at 1.
  destruct (to_be_downloaded auto infos w) as [[finals|e] w1]; [|reflexivity].
  unfold bind at 1.
  destruct (download_loop N finals file_name w1) as [[[]|e] w2]; reflexivity.
Qed.

Lemma download_not_found (N : net) (book_name file_name : string) (auto : bool)
    (results : list (list td)) (w : world) :
  book_name <> EmptyString \/ file_name <> EmptyString ->
  get_results N (search_url (query_name book_name file_name)) = Ok results ->
  (length results <= 1)%nat ->
  download N book_name file_name auto w = (Ok false, w).
Proof.
  intros Hnames Hres Hlen. rewrite (download_run N _ _ _ _ Hnames), Hres.
  destruct results as [|h [|r results]]; [reflexivity | reflexivity |].
  cbn in Hlen. lia.
Qed.

(** X15. When the search page has no result row besides its header,
    download returns False and get_book, after its second attempt,
    returns False as well; neither raises, and the world is left as it
    was: nothing is retrieved and no file is written. *)
Theorem nothing_found_returns_false (N : net) (book_name file_name : string)
    (auto : bool) (results : list (list td)) (w : world) :
  book_name <> EmptyString \/ file_name <> EmptyString ->
  get_results N (search_url (query_name book_name file_name)) = Ok results ->
  (length results <= 1)%nat ->
  download N book_name file_name auto w = (Ok false, w)
  /\ get_book N book_name file_name auto w = (Ok false, w).
Proof.
  intros Hnames Hres Hlen.
  pose proof (download_not_found N book_name file_name auto results w
                Hnames Hres Hlen) as Hd.
  split; [exact Hd|].
  unfold get_book, bind, get_better_name. rewrite Hd. cbn [negb]. rewrite Hd.
  reflexivity.
Qed.

Lemma nothing_found_returns_false_witness :
  download silent_net "" "books/Algebra.pdf" true empty_world = (Ok false, empty_world)
  /\ get_book silent_net "" "books/Algebra.pdf" true empty_world = (Ok false, empty_world).
Proof.
  apply (nothing_found_returns_false silent_net "" "books/Algebra.pdf" true []
           empty_world).
  - right. discriminate.
  - reflexivity.
  - cbn. lia.
Defined.

Lemma get_infos_short_row (rows : list (list td)) :
  Exists (fun r => (length r < 11)%nat) rows -> exists e, get_infos rows = Raise e.
Proof.
  induction 1 as [r rows Hr | r rows _ IH]; cbn [get_infos].
  - rewrite (get_info_short r Hr). eauto.
  - destruct (get_info r) as [x|e]; [|eauto].
    destruct IH as [e ->]. eauto.
Qed.

(** X16. One result row with fewer than eleven cells makes the whole
    download raise, whatever the other rows are: no record is selected,
    nothing is retrieved, and the world is left as it was. *)
Theorem short_row_aborts_download (N : net) (book_name file_name : string)
    (auto : bool) (header : list td) (rows : list (list td)) (w : world) :
  book_name <> EmptyString \/ file_name <> EmptyString ->
  get_results N (search_url (query_name book_name file_name)) = Ok (header :: rows) ->
  Exists (fun r => (length r < 11)%nat) rows ->
  exists e, download N book_name file_name auto w = (Raise e, w).
Proof.
  intros Hnames Hres Hshort. rewrite (download_run N _ _ _ _ Hnames), Hres.
  cbn [tl]. destruct (get_infos_short_row rows Hshort) as [e ->]. eauto.
Qed.

Lemma short_row_aborts_download_witness :
  exists e, download short_row_net "Algebra" "" true empty_world = (Raise e, empty_world).
Proof.
  apply (short_row_aborts_download short_row_net "Algebra" "" true []
           [row_full; row_nine] empty_world).
  - left. discriminate.
  - reflexivity.
  - right. left. cbn. lia.
Defined.

(** X17. Automatic download, end to end: when the search returns result
    rows that all parse, the record with the most pages (the first such)
    resolves, and the destination can be opened, download returns True
    after exactly one call of retrieve, for that record; the destination
    is the given file name, or title followed by lower-cased type when
    none is given; that file receives the body and nothing else changes. *)
Theorem automatic_download_succeeds (N : net) (book_name file_name : string)
    (header : list td) (rows : list (list td)) (x : info_t) (xs : list info_t)
    (lb : string * string) (w : world) :
  book_name <> EmptyString \/ file_name <> EmptyString ->
  get_results N (search_url (query_name book_name file_name)) = Ok (header :: rows) ->
  get_infos rows = Ok (x :: xs) ->
  let best := max_from comparing x xs in
  let name := step_name best file_name in
  resolves N best lb ->
  name <> EmptyString -> name ∉ w_dirs w ->
  exists w',
    download N book_name file_name true w = (Ok true, w')
    /\ w_files w' = <[name := snd lb]> (w_files w)
    /\ w_dirs w' = w_dirs w
    /\ w_trace w' = w_trace w ++ [EvRetrieve (fst lb) name].
Proof.
  intros Hnames Hres Hinfos best name Hlb Hname Hdir.
  rewrite (download_run N _ _ _ _ Hnames), Hres. cbn [tl]. rewrite Hinfos.
  cbn [length Nat.ltb Nat.leb to_be_downloaded py_max rbind lift].
  fold best. rewrite download_loop_cons.
  destruct (download_step_success N best file_name w lb Hlb Hname Hdir)
    as (w' & Hs & Ht & Hd & Hf).
  fold name in Hs, Ht, Hf. rewrite Hs. cbn [download_loop ret].
  exists w'. repeat split; assumption.
Qed.

Lemma automatic_download_succeeds_witness :
  exists w',
    download one_hit_net "Example" "" true empty_world = (Ok true, w')
    /\ w_files w' = <["Example Bookpdf" := "%PDF-1.4"]> ∅
    /\ w_dirs w' = ∅
    /\ w_trace w' = [EvRetrieve "http://93.174.95.29/main/AAAA" "Example Bookpdf"].
Proof.
  apply (automatic_download_succeeds one_hit_net "Example" "" [] [row_full]
           info_full [] ("http://93.174.95.29/main/AAAA", "%PDF-1.4") empty_world).
  - left. discriminate.
  - reflexivity.
  - vm_compute. reflexivity.
  - split; reflexivity.
  - discriminate.
  - apply not_elem_of_empty.
Defined.

Lemma download_step_stdin (N : net) (final : info_t) (file_name : string) (w : world) :
  w_stdin (snd (download_step N final file_name w)) = w_stdin w.
Proof.
  rewrite download_step_run.
  destruct (get_download_link N (download_page final)) as [link|e]; [|reflexivity].
  pose proof (retrieve_stdin N link (step_name final file_name) w) as Hs.
  destruct (retrieve N link (step_name final file_name) w) as [[[]|e] w2]; exact Hs.
Qed.

Lemma download_loop_stdin (N : net) (finals : list info_t) (file_name : string)
    (w : world) :
  w_stdin (snd (download_loop N finals file_name w)) = w_stdin w.
Proof.
  revert file_name w. induction finals as [|final finals IH]; intros file_name w;
    [reflexivity|].
  rewrite download_loop_cons.
  pose proof (download_step_stdin N final file_name w) as Hs.
  destruct (download_step N final file_name w) as [[n|e] w1]; [|exact Hs].
  rewrite IH. exact Hs.
Qed.

(** X18. Interactive download into a given file, end to end: when the
    rows parse to at least one record, the operator's line selects the
    records finals, all of them resolve and the file can be opened,
    download returns True; it has read one line of input and called
    retrieve once per selected record, in the order typed, every time on
    the given file name, which in the end holds whatever those writes
    left, the last body if any record was selected. *)
Theorem interactive_download_into_file (N : net) (book_name file_name : string)
    (header : list td) (rows : list (list td)) (x : info_t) (xs : list info_t)
    (selection : list Z) (more : list (list Z)) (finals : list info_t)
    (lbs : list (string * string)) (w : world) :
  file_name <> EmptyString -> file_name ∉ w_dirs w ->
  get_results N (search_url (query_name book_name file_name)) = Ok (header :: rows) ->
  get_infos rows = Ok (x :: xs) ->
  w_stdin w = selection :: more ->
  pick (x :: xs) selection = Ok finals ->
  Forall2 (resolves N) finals lbs ->
  exists w',
    download N book_name file_name false w = (Ok true, w')
    /\ w_stdin w' = more
    /\ w_trace w' = w_trace w ++ retrieve_events file_name (map fst lbs)
    /\ w_files w' = fold_left (fun m lb => <[file_name := snd lb]> m) lbs (w_files w).
Proof.
  intros Hname Hdir Hres Hinfos Hin Hpick Hall.
  rewrite (download_run N _ _ _ _ (or_intror Hname)), Hres. cbn [tl].
  rewrite Hinfos. cbn [length Nat.ltb Nat.leb].
  unfold to_be_downloaded, bind at 1, input_ints, lift. rewrite Hin, Hpick.
  match goal with |- context [download_loop N finals file_name ?w1] =>
    destruct (download_loop_success N file_name finals lbs Hname Hall w1 Hdir)
      as (w' & Hl & Ht & Hf) end.
  rewrite Hl. exists w'. split; [reflexivity|].
  split; [|split; assumption].
  match type of Hl with download_loop _ _ _ ?w1 = _ =>
    pose proof (download_loop_stdin N finals file_name w1) as Hs end.
  rewrite Hl in Hs. exact Hs.
Qed.

Lemma interactive_download_into_file_witness :
  exists w',
    download one_hit_net "Example" "out.pdf" false typing_world = (Ok true, w')
    /\ w_stdin w' = []
    /\ w_trace w' = [EvRetrieve "http://93.174.95.29/main/AAAA" "out.pdf";
                     EvRetrieve "http://93.174.95.29/main/AAAA" "out.pdf"]
    /\ w_files w' = <["out.pdf" := "%PDF-1.4"]> (<["out.pdf" := "%PDF-1.4"]> ∅).
Proof.
  apply (interactive_download_into_file one_hit_net "Example" "out.pdf" []
           [row_full] info_full [] [1; 0] [] [info_full; info_full]
           [("http://93.174.95.29/main/AAAA", "%PDF-1.4");
            ("http://93.174.95.29/main/AAAA", "%PDF-1.4")] typing_world).
  - discriminate.
  - apply not_elem_of_empty.
  - reflexivity.
  - vm_compute. reflexivity.
  - reflexivity.
  - vm_compute. reflexivity.
  - repeat constructor.
Defined.

(** ** Acquisition: one record *)

Lemma py_index_nat {A} (l : list A) (k : nat) (x : A) :
  nth_error l k = Some x -> py_index l (Z.of_nat k) = Ok x.
Proof.
  intros H. unfold py_index.
  assert (Hlt : (k < length l)%nat) by (apply nth_error_Some; congruence).
  destruct (Z.of_nat k <? 0) eqn:H0; [apply Z.ltb_lt in H0; lia|]. rewrite H0.
  destruct (Z.of_nat (length l) <=? Z.of_nat k) eqn:H1; [apply Z.leb_le in H1; lia|].
  cbn [orb]. rewrite Nat2Z.id, H. reflexivity.
Qed.

Lemma nth_error_last {A} (l : list A) (x : A) :
  nth_error (l ++ [x]) (length l) = Some x.
Proof. induction l as [|y l IH]; [reflexivity | exact IH]. Qed.

(** X13. The operator's numbers count from one: the number k + 1 picks
    the record at index k.  The number 0 does not raise: it picks the last
    record.  A number larger than the number of records raises
    IndexError.  A pick that succeeds returns one record per number. *)
Theorem selection_counts_from_one (infos : list info_t) :
  (forall (k : nat) (x : info_t),
      nth_error infos k = Some x -> pick infos [Z.of_nat k + 1] = Ok [x])
  /\ (forall (front : list info_t) (x : info_t),
        infos = front ++ [x] -> pick infos [0] = Ok [x])
  /\ (forall k : Z, Z.of_nat (length infos) < k -> pick infos [k] = Raise IndexError)
  /\ (forall (selection : list Z) (xs : list info_t),
        pick infos selection = Ok xs -> length xs = length selection).
Proof.
  split; [|split; [|split]].
  - intros k x H. cbn [pick].
    replace (Z.of_nat k + 1 - 1) with (Z.of_nat k) by lia.
    rewrite (py_index_nat infos k x H). reflexivity.
  - intros front x ->. cbn [pick]. unfold py_index.
    rewrite length_app. cbn [length].
    replace (0 - 1 <? 0) with true by reflexivity.
    replace (0 - 1 + Z.of_nat (length front + 1)) with (Z.of_nat (length front)) by lia.
    destruct (Z.of_nat (length front) <? 0) eqn:H0; [apply Z.ltb_lt in H0; lia|].
    destruct (Z.of_nat (length front + 1) <=? Z.of_nat (length front)) eqn:H1;
      [apply Z.leb_le in H1; lia|].
    cbn [orb]. rewrite Nat2Z.id, nth_error_last. reflexivity.
  - intros k Hk. cbn [pick]. unfold py_index.
    destruct (k - 1 <? 0) eqn:H0; [apply Z.ltb_lt in H0; lia|]. rewrite H0.
    destruct (Z.of_nat (length infos) <=? k - 1) eqn:H1;
      [reflexivity | apply Z.leb_gt in H1; lia].
  - induction selection as [|i selection IH]; intros xs H; cbn [pick] in H.
    + injection H as <-. reflexivity.
    + destruct (py_index infos (i - 1)) as [y|e]; [|discriminate]. cbn [rbind] in H.
      destruct (pick infos selection) as [ys|e]; [|discriminate]. cbn [rbind] in H.
      injection H as <-. cbn [length]. f_equal. apply IH. reflexivity.
Qed.

Lemma get_download_page_some (links : list string) (u : string) :
  get_download_page links = Some u ->
  In u links /\ str_contains mirror_host u = true.
Proof.
  induction links as [|i links IH]; [discriminate|]. cbn [get_download_page].
  destruct (str_contains mirror_host i) eqn:Hi.
  - intros H. injection H as <-. split; [left; reflexivity | exact Hi].
  - intros H. destruct (IH H). split; [right|]; assumption.
Qed.

Lemma get_download_page_none (links : list string) :
  Forall (fun l => str_contains mirror_host l = false) links ->
  get_download_page links = None.
Proof.
  induction 1 as [|i links Hi _ IH]; [reflexivity|].
  cbn [get_download_page]. rewrite Hi. exact IH.
Qed.

(** X12. A record returned by get_info takes author, title, language,
    size and type from the cells at indices 1, 2, 6, 7 and 8; its links
    are the hrefs of the cells from index 9 on without the last cell, so
    there are ten fewer links than cells; its code is the part of the
    first link after the last slash and contains no slash; and its
    download page, when there is one, is one of its links and contains
    the mirror address. *)
Theorem get_info_record (temp : list td) (info : info_t) :
  get_info temp = Ok info ->
  option_map text (nth_error temp 1) = Some (author info)
  /\ option_map text (nth_error temp 2) = Some (title info)
  /\ option_map text (nth_error temp 6) = Some (lang info)
  /\ option_map text (nth_error temp 7) = Some (size info)
  /\ option_map text (nth_error temp 8) = Some (type info)
  /\ hrefs (slice_to_last 9 temp) = Ok (links info)
  /\ length (links info) = (length temp - 10)%nat
  /\ (exists l0 ls, links info = l0 :: ls /\ code info = get_code l0)
  /\ slash_free (code info)
  /\ (forall u, download_page info = Some u ->
        In u (links info) /\ str_contains mirror_host u = true).
Proof.
  intros H.
  destruct (Nat.lt_ge_cases (length temp) 11) as [Hlt|Hge].
  { rewrite (get_info_short temp Hlt) in H. discriminate. }
  destruct temp as [|c0 [|c1 [|c2 [|c3 [|c4 [|c5 [|c6 [|c7 [|c8 rest]]]]]]]]];
    cbn in Hge; try lia.
  assert (Hs : slice_to_last 9
            (c0 :: c1 :: c2 :: c3 :: c4 :: c5 :: c6 :: c7 :: c8 :: rest)
          = take (length rest - 1) rest).
  { unfold slice_to_last. cbn [length drop skipn]. f_equal; lia. }
  rewrite Hs. rewrite get_info_long in H.
  destruct (hrefs (take (length rest - 1) rest)) as [ls|e] eqn:Hls; [|discriminate].
  cbn [rbind] in H. rewrite py_index_first in H.
  destruct ls as [|l0 ls]; [discriminate|].
  cbn [rbind] in H. injection H as <-.
  cbn [author title lang size type links code download_page nth_error option_map].
  repeat (split; [reflexivity|]).
  split.
  { apply hrefs_length in Hls. rewrite Hls, length_take. cbn [length]. lia. }
  split; [eauto|]. split.
  { unfold slash_free, get_code.
    apply (last_Forall _ _ _ (str_split_no_sep slash l0)).
    destruct (str_split_cons slash l0) as (h & t & ->). discriminate. }
  intros u Hu. apply get_download_page_some. exact Hu.
Qed.

Lemma get_info_record_witness :
  option_map text (nth_error row_full 1) = Some (author info_full)
  /\ option_map text (nth_error row_full 2) = Some (title info_full)
  /\ option_map text (nth_error row_full 6) = Some (lang info_full)
  /\ option_map text (nth_error row_full 7) = Some (size info_full)
  /\ option_map text (nth_error row_full 8) = Some (type info_full)
  /\ hrefs (slice_to_last 9 row_full) = Ok (links info_full)
  /\ length (links info_full) = (length row_full - 10)%nat
  /\ (exists l0 ls, links info_full = l0 :: ls /\ code info_full = get_code l0)
  /\ slash_free (code info_full)
  /\ (forall u, download_page info_full = Some u ->
        In u (links info_full) /\ str_contains mirror_host u = true).
Proof.
  apply (get_info_record row_full info_full). vm_compute. reflexivity.
Defined.

(** X19. Whatever the outcome, retrieve records its call, leaves the
    directories and the pending input alone, and changes no file other
    than the one it was given.  When the request itself fails, or the
    file cannot be opened, no file changes.  When the transfer breaks
    after the file was opened, retrieve raises the transfer's exception
    and the file is left holding the part already written, not what it
    held before. *)
Theorem retrieve_touches_one_file (N : net) (download_link file_name : string)
    (w : world) :
  w_trace (snd (retrieve N download_link file_name w))
    = w_trace w ++ [EvRetrieve download_link file_name]
  /\ w_dirs (snd (retrieve N download_link file_name w)) = w_dirs w
  /\ w_stdin (snd (retrieve N download_link file_name w)) = w_stdin w
  /\ (forall k, k <> file_name ->
        w_files (snd (retrieve N download_link file_name w)) !! k = w_files w !! k)
  /\ (forall e, http_body N download_link = Raise e ->
        http_partial N download_link = None ->
        fst (retrieve N download_link file_name w) = Raise e
        /\ w_files (snd (retrieve N download_link file_name w)) = w_files w)
  /\ (file_name = EmptyString \/ file_name ∈ w_dirs w ->
        (exists e, fst (retrieve N download_link file_name w) = Raise e)
        /\ w_files (snd (retrieve N download_link file_name w)) = w_files w)
  /\ (forall e part, http_body N download_link = Raise e ->
        http_partial N download_link = Some part ->
        file_name <> EmptyString -> file_name ∉ w_dirs w ->
        fst (retrieve N download_link file_name w) = Raise e
        /\ w_files (snd (retrieve N download_link file_name w))
           = <[file_name := part]> (w_files w)).
Proof.
  split; [apply retrieve_trace|].
  split.
  { unfold retrieve, bind, log, raise, write_file.
    destruct (http_body N download_link) as [body|e];
      [|destruct (http_partial N download_link) as [part|]];
      try reflexivity;
      (destruct (String.eqb file_name ""); [reflexivity|]); cbn [w_dirs];
      destruct (bool_decide (file_name ∈ w_dirs w)); reflexivity. }
  split; [apply retrieve_stdin|].
  split.
  { intros k Hk. unfold retrieve, bind, log, raise, write_file.
    destruct (http_body N download_link) as [body|e];
      [|destruct (http_partial N download_link) as [part|]];
      try reflexivity;
      (destruct (String.eqb file_name ""); [reflexivity|]); cbn [w_dirs];
      (destruct (bool_decide (file_name ∈ w_dirs w)); [reflexivity|]);
      cbn [snd w_files]; apply lookup_insert_ne; congruence. }
  split.
  { intros e He Hp. unfold retrieve, bind, log, raise. rewrite He, Hp.
    split; reflexivity. }
  split.
  { intros Hbad. unfold retrieve, bind, log, raise, write_file.
    assert (Hcase : String.eqb file_name "" = true
                    \/ (String.eqb file_name "" = false
                        /\ bool_decide (file_name ∈ w_dirs w) = true)).
    { destruct (String.eqb file_name "") eqn:He; [left; reflexivity|].
      right. split; [reflexivity|]. destruct Hbad as [Hn|Hd].
      - apply String.eqb_neq in He. contradiction.
      - apply bool_decide_eq_true_2. exact Hd. }
    destruct (http_body N download_link) as [body|e];
      [|destruct (http_partial N download_link) as [part|]];
      destruct Hcase as [H1|[H1 H2]]; cbn [w_dirs]; rewrite ?H1, ?H2;
      split; eauto. }
  intros e part He Hp Hname Hdir. unfold retrieve, bind at 1, log.
  rewrite He, Hp. unfold bind, raise.
  match goal with |- context [write_file _ _ ?w1] =>
    destruct (write_file_ok file_name part w1 Hname Hdir) as (w' & Hw & Hf & _) end.
  rewrite Hw. split; [reflexivity | exact Hf].
Qed.

(** X20. A record returned by get_info none of whose links contains the
    mirror address has no download page, and selecting it makes the loop
    raise at once: retrieve is not called, for it or for any record after
    it, and the world is left as it was. *)
Theorem record_without_mirror_aborts (N : net) (temp : list td) (final : info_t)
    (finals : list info_t) (file_name : string) (w : world) :
  get_info temp = Ok final ->
  Forall (fun l => str_contains mirror_host l = false) (links final) ->
  download_page final = None
  /\ download_loop N (final :: finals) file_name w = (Raise RequestException, w).
Proof.
  intros Hinfo Hall.
  assert (Hdp : download_page final = None).
  { unfold get_info in Hinfo.
    destruct (cell_at temp 1); [|discriminate].
    destruct (cell_at temp 2); [|discriminate].
    destruct (cell_at temp 5); [|discriminate].
    destruct (cell_at temp 6); [|discriminate].
    destruct (cell_at temp 7); [|discriminate].
    destruct (cell_at temp 8); [|discriminate].
    cbn [rbind] in Hinfo.
    destruct (hrefs (slice_to_last 9 temp)) as [ls|e]; [|discriminate].
    cbn [rbind] in Hinfo. destruct (py_index ls 0); [|discriminate].
    cbn [rbind] in Hinfo. injection Hinfo as <-.
    cbn [download_page links] in *. apply get_download_page_none. exact Hall. }
  split; [exact Hdp|].
  rewrite download_loop_cons, download_step_run, Hdp. reflexivity.
Qed.

Lemma record_without_mirror_aborts_witness :
  download_page info_elsewhere = None
  /\ download_loop sample_net [info_elsewhere; info_full] "" empty_world
     = (Raise RequestException, empty_world).
Proof.
  apply (record_without_mirror_aborts sample_net row_elsewhere info_elsewhere
           [info_full] "" empty_world).
  - vm_compute. reflexivity.
  - repeat constructor.
Defined.

(** ** The entry points of the package *)

Lemma get_book_quiet_when_nothing_found (N : net) :
  (forall url, exists results,
      get_results N url = Ok results /\ (length results <= 1)%nat) ->
  quiet (fun file_name => get_book N "" file_name true).
Proof.
  intros Hnone f w Hf. exists false.
  destruct (Hnone (search_url (query_name "" f))) as (results & Hres & Hlen).
  pose proof (download_not_found N "" f true results w (or_intror Hf) Hres Hlen) as Hd.
  unfold get_book, bind, get_better_name. rewrite Hd. cbn [negb]. rewrite Hd.
  reflexivity.
Qed.

(** X10. create_library on a fresh target when no search finds anything:
    every get_book returns False and the replay goes on; when the
    directories of the entries can be made one after the other it
    completes, having made one directory per entry and asked for every
    file in order, and no file has been written. *)
Theorem create_library_when_nothing_found (N : net) (P : codec)
    (catalogue_name content : string) (w : world)
    (first : entry) (rest : catalogue_t) (ps : list string) :
  (forall url, exists results,
      get_results N url = Ok results /\ (length results <= 1)%nat) ->
  w_files w !! catalogue_name = Some content ->
  pickle_loads P content = Ok (first :: rest) ->
  fst (base_and_replace (entry_path first)) ∉ w_dirs w ->
  Forall2 (fun e p =>
             norm_path (snd (base_and_replace (entry_path first))) (entry_path e) = Ok p)
    (first :: rest) ps ->
  ready (w_dirs w) ps ->
  Forall (fun p => w_files w !! p = None) ps ->
  exists w',
    create_library N P catalogue_name w = (Ok tt, w')
    /\ w_files w' = w_files w
    /\ w_dirs w' = list_to_set ps ∪ w_dirs w
    /\ w_trace w' = w_trace w ++ replay_events ps (first :: rest).
Proof.
  intros Hnone Hfile Hload Hdir Hnorm Hready Hfresh. unfold create_library.
  rewrite (traverse_catalogue_run P catalogue_name content _ w first rest
             Hfile Hload Hdir).
  exact (for_entries_quiet _ _ (get_book_quiet_when_nothing_found N Hnone)
           (first :: rest) ps Hnorm w Hready Hfresh).
Qed.

Lemma create_library_when_nothing_found_witness :
  exists w',
    create_library silent_net ref_codec "books.cat" fresh_world = (Ok tt, w')
    /\ w_files w' = w_files fresh_world
    /\ w_dirs w' = list_to_set ["books"; "books/empty"; "books/sub"] ∪ w_dirs fresh_world
    /\ w_trace w'
       = [EvMkdir "books"; EvAction "books/a.pdf"; EvMkdir "books/empty";
          EvMkdir "books/sub"; EvAction "books/sub/b.pdf";
          EvAction "books/sub/c.djvu"].
Proof.
  apply (create_library_when_nothing_found silent_net ref_codec "books.cat"
           (ref_dumps sample_catalogue) fresh_world ("home/books", [], ["a.pdf"])
           [("home/books/empty", [], []);
            ("home/books/sub", [], ["b.pdf"; "c.djvu"])]
           ["books"; "books/empty"; "books/sub"]).
  - intros url. exists []. split; [reflexivity | cbn; lia].
  - vm_compute. reflexivity.
  - exact (ref_codec_round_trip sample_catalogue).
  - apply not_elem_of_empty.
  - repeat constructor.
  - exact sample_dirs_ready.
  - repeat constructor.
Defined.

(** X11. Scanning a directory: when the catalogue file does not exist
    and its name can be opened, create_catalogue_traversing stores what
    the directory walk yields, unchanged and in the walk's order, and with
    a pickle module that loads what it dumps the stored file loads as
    exactly that; no directory is made and no action is called. *)
Theorem scan_stores_the_walk (walk : string -> catalogue_t) (P : codec)
    (directory file_name : string) (w : world) :
  (forall c, pickle_loads P (pickle_dumps P c) = Ok c) ->
  w_files w !! file_name = None ->
  file_name <> EmptyString -> file_name ∉ w_dirs w ->
  exists w',
    create_catalogue_traversing walk P directory file_name w = (Ok tt, w')
    /\ load_file P file_name w' = (Ok (walk directory), w')
    /\ w_dirs w' = w_dirs w /\ w_trace w' = w_trace w.
Proof.
  intros Hrt Hf Hname Hdir.
  destruct (write_file_ok file_name (pickle_dumps P (walk directory)) w Hname Hdir)
    as (w' & Hw & Hfiles & Hdirs & Htrace).
  exists w'. split.
  { unfold create_catalogue_traversing, bind, isfile, get_relative, dump_file.
    rewrite Hf. rewrite bool_decide_eq_false_2 by (intros [? ?]; discriminate).
    exact Hw. }
  split; [|split; assumption].
  unfold load_file, bind, read_file, lift.
  rewrite Hfiles, lookup_insert_eq, Hrt. reflexivity.
Qed.

Lemma scan_stores_the_walk_witness :
  exists w',
    create_catalogue_traversing sample_walk ref_codec "home/books" "books.cat"
      empty_world = (Ok tt, w')
    /\ load_file ref_codec "books.cat" w' = (Ok (sample_walk "home/books"), w')
    /\ w_dirs w' = w_dirs empty_world /\ w_trace w' = w_trace empty_world.
Proof.
  apply (scan_stores_the_walk sample_walk ref_codec "home/books" "books.cat"
           empty_world ref_codec_round_trip).
  - reflexivity.
  - discriminate.
  - apply not_elem_of_empty.
Defined.

(** X14. create_catalogue on a name that is neither a file nor a
    directory does not raise: the walk yields nothing, a catalogue
    without entries is stored, and replaying that catalogue afterwards
    raises IndexError before anything is made. *)
Theorem create_catalogue_of_nothing {A} (walk : string -> catalogue_t) (P : codec)
    (fname catalogue_name : string) (action_function : string -> M A) (w : world) :
  pickle_loads P (pickle_dumps P []) = Ok [] ->
  w_files w !! fname = None ->
  walk fname = [] ->
  w_files w !! catalogue_name = None ->
  catalogue_name <> EmptyString -> catalogue_name ∉ w_dirs w ->
  exists w',
    create_catalogue walk P fname catalogue_name w = (Ok tt, w')
    /\ w_files w' = <[catalogue_name := pickle_dumps P []]> (w_files w)
    /\ traverse_catalogue P catalogue_name action_function w' = (Raise IndexError, w').
Proof.
  intros Hrt Hfname Hwalk Hcat Hname Hdir.
  destruct (write_file_ok catalogue_name (pickle_dumps P []) w Hname Hdir)
    as (w' & Hw & Hfiles & Hdirs & Htrace).
  exists w'. split.
  { unfold create_catalogue, bind at 1, isfile at 1.
    rewrite Hfname. rewrite bool_decide_eq_false_2 by (intros [? ?]; discriminate).
    unfold create_catalogue_traversing, bind, isfile, get_relative, dump_file.
    rewrite Hcat. rewrite bool_decide_eq_false_2 by (intros [? ?]; discriminate).
    rewrite Hwalk. exact Hw. }
  split; [exact Hfiles|].
  unfold traverse_catalogue, bind, isfile, load_file, bind, read_file, lift.
  rewrite Hfiles, lookup_insert_eq. rewrite bool_decide_eq_true_2 by eauto.
  cbv beta iota delta [negb]. rewrite Hfiles, lookup_insert_eq. cbv beta iota.
  rewrite Hrt. reflexivity.
Qed.

Lemma create_catalogue_of_nothing_witness :
  exists w',
    create_catalogue sample_walk ref_codec "nowhere" "books.cat" empty_world
      = (Ok tt, w')
    /\ w_files w' = <["books.cat" := pickle_dumps ref_codec []]> (w_files empty_world)
    /\ traverse_catalogue ref_codec "books.cat" creator w' = (Raise IndexError, w').
Proof.
  apply (create_catalogue_of_nothing sample_walk ref_codec "nowhere" "books.cat"
           creator empty_world).
  - exact (ref_codec_round_trip []).
  - reflexivity.
  - reflexivity.
  - reflexivity.
  - discriminate.
  - apply not_elem_of_empty.
Defined.

(** ** Replay: the directory made for a path *)

Lemma prefix_app (p s : string) : String.prefix p (p +:+ s) = true.
Proof.
  induction p as [|c p IH]; [destruct s; reflexivity|].
  change (String.prefix (String c p) (String c (p +:+ s)) = true).
  cbn [String.prefix]. destruct (ascii_dec c c) as [_|Hne]; [exact IH | contradiction].
Qed.

Lemma replace_from_skip (old new t s : string) :
  replace_from old new (String.length t) (t +:+ s) = replace_from old new 0 s.
Proof.
  induction t as [|c t IH]; [reflexivity|].
  change (replace_from old new (S (String.length t)) (String c (t +:+ s))
          = replace_from old new 0 s).
  cbn [replace_from]. exact IH.
Qed.

Lemma replace_absent (old new s : string) :
  str_contains old s = false -> replace_from old new 0 s = s.
Proof.
  induction s as [|c s IH]; [reflexivity|].
  cbn [str_contains replace_from].
  destruct (String.prefix old (String c s)); [discriminate|].
  intros H. rewrite (IH H). reflexivity.
Qed.

Lemma intersperse_nothing (s : string) : intersperse_str "" s = s.
Proof.
  induction s as [|c s IH]; [reflexivity|].
  cbn [intersperse_str]. change ("" +:+ String c (intersperse_str "" s))
    with (String c (intersperse_str "" s)). rewrite IH. reflexivity.
Qed.

(** X21. The directory made for a path that starts with the stripped
    prefix followed by a slash is the rest of the path, provided the
    prefix does not occur again in the slash and that rest. *)
Theorem norm_path_strips_prefix (replace_path tail : string) :
  tail <> EmptyString ->
  str_contains replace_path ("/" +:+ tail) = false ->
  norm_path replace_path (replace_path +:+ "/" +:+ tail) = Ok tail.
Proof.
  intros Htail Habs. unfold norm_path, str_replace.
  destruct replace_path as [|c rp].
  - discriminate.
  - change ((String c rp) +:+ "/" +:+ tail) with (String c (rp +:+ "/" +:+ tail)).
    cbn [replace_from].
    change (String c (rp +:+ "/" +:+ tail)) with ((String c rp) +:+ "/" +:+ tail).
    rewrite prefix_app.
    cbn [String.length]. rewrite Nat.sub_1_r. cbn [Nat.pred].
    rewrite replace_from_skip, (replace_absent _ _ _ Habs).
    reflexivity.
Qed.

Lemma norm_path_strips_prefix_witness :
  norm_path "home" ("home" +:+ "/" +:+ "books/sub") = Ok "books/sub".
Proof.
  apply (norm_path_strips_prefix "home" "books/sub"); [discriminate | reflexivity].
Defined.

(** ** The name searched for *)

Lemma download_same_query (N : net) (b1 b2 file_name : string) (auto : bool) (w : world) :
  b1 <> EmptyString \/ file_name <> EmptyString ->
  b2 <> EmptyString \/ file_name <> EmptyString ->
  query_name b1 file_name = query_name b2 file_name ->
  download N b1 file_name auto w = download N b2 file_name auto w.
Proof.
  intros H1 H2 Hq. rewrite (download_run N b1 _ _ _ H1), (download_run N b2 _ _ _ H2), Hq.
  reflexivity.
Qed.

(** X22. Without a book name, download searches for the part of the file
    name after its last slash and before the first dot that follows: that
    name contains no slash and no dot, the last segment of the file name
    is that name alone or that name, a dot and a remainder, and the call
    behaves exactly like the call with that name as book name. *)
Theorem search_name_from_file_name (N : net) (file_name : string) (auto : bool)
    (w : world) :
  file_name <> EmptyString ->
  derived_name file_name <> EmptyString ->
  download N "" file_name auto w = download N (derived_name file_name) file_name auto w
  /\ contains_char slash (derived_name file_name) = false
  /\ contains_char dot (derived_name file_name) = false
  /\ exists rest,
       List.last (str_split slash file_name) EmptyString
         = derived_name file_name +:+ rest
       /\ (rest = EmptyString \/ exists r, rest = "." +:+ r).
Proof.
  intros Hfile Hder.
  set (seg := List.last (str_split slash file_name) EmptyString).
  assert (Hseg : contains_char slash seg = false).
  { apply (last_Forall _ _ _ (str_split_no_sep slash file_name)).
    destruct (str_split_cons slash file_name) as (h & t & ->). discriminate. }
  pose proof (str_join_split dot seg) as Hj.
  pose proof (str_split_no_sep dot seg) as Hnd.
  assert (Hd : derived_name file_name = hd EmptyString (str_split dot seg)) by reflexivity.
  destruct (str_split dot seg) as [|h t] eqn:Hs;
    [destruct (str_split_cons dot seg) as (? & ? & ?); congruence|].
  cbn [hd] in Hd. apply Forall_cons in Hnd as [Hh _].
  assert (Hrest : exists rest, seg = h +:+ rest
                    /\ (rest = EmptyString \/ exists r, rest = "." +:+ r)).
  { destruct t as [|y t].
    - exists EmptyString. cbn in Hj. rewrite str_app_nil. split; [congruence | left; reflexivity].
    - exists ("." +:+ str_join "." (y :: t)). split; [|right; eauto].
      symmetry. exact Hj. }
  split.
  { apply download_same_query; [right; exact Hfile | left; exact Hder |].
    unfold query_name. cbn [String.eqb].
    destruct (String.eqb (derived_name file_name) "") eqn:He; [|reflexivity].
    apply String.eqb_eq in He. contradiction. }
  rewrite Hd. split.
  { destruct Hrest as (rest & Hr & _). rewrite Hr, contains_char_app in Hseg.
    apply orb_false_elim in Hseg as [Hseg _]. exact Hseg. }
  split; [exact Hh | exact Hrest].
Qed.

Lemma search_name_from_file_name_witness :
  download silent_net "" "books/Linear.Algebra.pdf" true empty_world
    = download silent_net "Linear" "books/Linear.Algebra.pdf" true empty_world
  /\ contains_char slash "Linear" = false
  /\ contains_char dot "Linear" = false
  /\ exists rest,
       "Linear.Algebra.pdf" = "Linear" +:+ rest
       /\ (rest = EmptyString \/ exists r, rest = "." +:+ r).
Proof.
  apply (search_name_from_file_name silent_net "books/Linear.Algebra.pdf" true
           empty_world); discriminate.
Defined.
